(** * chatfilter: the message filter engine of [chat_filter.py]

    A shallow embedding of the class [ChatMessageFilter] and the properties
    its specification states about it.

    - Python [str] values are sequences of Unicode code points ([list N]).
    - The instance attributes form the record [ChatMessageFilter]; methods
      that read them are functions of [self], methods that assign them or
      raise run in a small state-and-exception monad in which the state
      survives a raised exception, as the attributes of a Python object do.
    - [set] is stdpp's [gset]; Python integers are [Z].
    - The diagnostic [print] and [logging] calls are left out. *)

From Stdlib Require Import ZArith NArith List Ascii String Lia Bool DecimalString.
From stdpp Require Import base gmap sets list sorting.
Import ListNotations.

Set Warnings "-register-all".

(** ** Python strings *)

Abbreviation pystr := (list N).

(** A string literal of the source, as code points. *)
Definition py (s : string) : pystr := List.map N_of_ascii (list_ascii_of_string s).

Definition in_range (lo hi c : N) : bool := ((lo <=? c) && (c <=? hi))%N.
Definition is_ascii (c : N) : bool := (c <? 128)%N.
Definition ascii_upper (c : N) : bool := in_range 65 90 c.
Definition ascii_lower (c : N) : bool := in_range 97 122 c.
Definition ascii_digit (c : N) : bool := in_range 48 57 c.
(** The character class [[a-zA-Z]]. *)
Definition ascii_letter (c : N) : bool := ascii_upper c || ascii_lower c.
(** ASCII characters for which [str.isspace] holds: TAB..CR, FS..US, SPACE. *)
Definition ascii_space (c : N) : bool := in_range 9 13 c || in_range 28 32 c.

(** ** JSON documents, as [json.load] returns them

    A float is kept as the two observations the loader makes of it: its
    truth value and its [str()] text. A dict is the sequence of the
    members of the document, in order. *)
Inductive json :=
| JNull
| JBool (b : bool)
| JInt (z : Z)
| JFloat (truthy : bool) (text : pystr)
| JStr (s : pystr)
| JList (items : list json)
| JDict (bindings : list (pystr * json)).

(** ** What the interpreter supplies

    The parts of Python's Unicode tables and of [str()] that the module
    relies on but that are not fixed here: the classification and the
    lowercase mapping of the code points outside ASCII (the lowercase of a
    code point may depend on its context, as for a final sigma, so it is
    given the reversed prefix and the suffix), and the text of a list or a
    dict. Every statement below holds for all such tables. *)
Class Builtins := {
  uni_isalnum : N -> bool;
  uni_isspace : N -> bool;
  uni_lower : pystr -> N -> pystr -> pystr;
  str_container : json -> pystr
}.

(** Tables under which no code point outside ASCII is alphanumeric or a
    space and each is its own lowercase; used to run the engine on
    concrete messages. *)
Definition plain_builtins : Builtins :=
  {| uni_isalnum := fun _ => false;
     uni_isspace := fun _ => false;
     uni_lower := fun _ c _ => [c];
     str_container := fun _ => [] |}.

Section Strings.

Context {B : Builtins}.

(** [\w] of [re] on a [str] pattern: alphanumeric or underscore. *)
Definition is_word (c : N) : bool :=
  if is_ascii c then ascii_letter c || ascii_digit c || (c =? 95)%N
  else uni_isalnum c.

Definition is_space (c : N) : bool :=
  if is_ascii c then ascii_space c else uni_isspace c.

(** Lowercase of one code point. Two code points outside ASCII have a
    lowercase that contains an ASCII letter: U+0130 (capital I with dot
    above) gives [i] followed by U+0307, and U+212A (the Kelvin sign)
    gives [k]. *)
Definition lower_cp (before : pystr) (c : N) (after : pystr) : pystr :=
  if is_ascii c then [if ascii_upper c then (c + 32)%N else c]
  else if (c =? 304)%N then [105; 775]%N
  else if (c =? 8490)%N then [107]%N
  else uni_lower before c after.

Fixpoint lower_go (before s : pystr) : pystr :=
  match s with
  | [] => []
  | c :: after => lower_cp before c after ++ lower_go (c :: before) after
  end.

(** [str.lower] *)
Definition lower (s : pystr) : pystr := lower_go [] s.

Fixpoint lstrip (s : pystr) : pystr :=
  match s with
  | [] => []
  | c :: s' => if is_space c then lstrip s' else s
  end.

Definition rstrip (s : pystr) : pystr := rev (lstrip (rev s)).

(** [str.strip] *)
Definition strip (s : pystr) : pystr := rstrip (lstrip s).

(** [s.replace(old, new)] for one-character [old] and [new]. *)
Definition replace (old new : N) (s : pystr) : pystr :=
  List.map (fun c => if (c =? old)%N then new else c) s.

(** [r * n] *)
Fixpoint str_mul (r : pystr) (n : nat) : pystr :=
  match n with
  | O => []
  | S n' => r ++ str_mul r n'
  end.

(** ** The pattern [\b\w+\b]

    A match of [\b\w+\b] is a maximal run of word characters: it must
    start and end at a word boundary, and [\w+] cannot stop inside a run.
    [pieces] cuts a string into its matches and the characters between
    them, in order. *)
Inductive piece :=
| Word (w : pystr)
| Sep (c : N).

Fixpoint pieces (s : pystr) : list piece :=
  match s with
  | [] => []
  | c :: s' =>
      if is_word c then
        match pieces s' with
        | Word w :: ps => Word (c :: w) :: ps
        | ps => Word [c] :: ps
        end
      else Sep c :: pieces s'
  end.

(** [re.findall(r'\b\w+\b', s)] *)
Definition findall_words (s : pystr) : list pystr :=
  flat_map (fun p => match p with Word w => [w] | Sep _ => [] end) (pieces s).

(** [re.sub(r'\b\w+\b', repl, s)] for a callback [repl] that updates a
    variable of its enclosing scope (here of type [St]); the matches are
    visited from left to right. *)
Fixpoint sub_pieces {St : Type} (repl : pystr -> St -> pystr * St)
         (ps : list piece) (st : St) : pystr * St :=
  match ps with
  | [] => ([], st)
  | Sep c :: ps' =>
      let '(out, st') := sub_pieces repl ps' st in (c :: out, st')
  | Word w :: ps' =>
      let '(r, st1) := repl w st in
      let '(out, st2) := sub_pieces repl ps' st1 in
      (r ++ out, st2)
  end.

Definition sub_words {St : Type} (repl : pystr -> St -> pystr * St)
           (s : pystr) (st : St) : pystr * St :=
  sub_pieces repl (pieces s) st.

End Strings.

(** ** The engine *)

Inductive FilterLevel := STRICT | MODERATE | LENIENT.

#[global] Instance FilterLevel_eq_dec : EqDecision FilterLevel.
Proof. solve_decision. Defined.

(** [FilterLevel.value] *)
Definition FilterLevel_value (l : FilterLevel) : pystr :=
  match l with
  | STRICT => py "strict"
  | MODERATE => py "moderate"
  | LENIENT => py "lenient"
  end.

(** The attributes assigned in [__init__]. *)
Record ChatMessageFilter := {
  filter_level : FilterLevel;
  curse_words : gset pystr;
  replacement_char : pystr;
  max_message_length : Z;
  min_message_length : Z;
  total_messages_processed : Z;
  total_words_filtered : Z
}.

(** An argument that the source tests with [isinstance(x, str)]: a string,
    or anything else ([None] included). *)
Inductive pyarg :=
| NotStr
| Str (s : pystr).

Inductive exn :=
| FileNotFoundError
| OSError
| JSONDecodeError
| ValueError
| Exception.

Inductive outcome (A : Type) :=
| Return (a : A)
| Raise (e : exn).
Arguments Return {A} a.
Arguments Raise {A} e.

(** A method body: it starts from the attributes of [self] and ends with
    their new values and either a result or a raised exception. *)
Definition M (A : Type) : Type := ChatMessageFilter -> outcome A * ChatMessageFilter.

Definition ret {A} (a : A) : M A := fun self => (Return a, self).
Definition raise {A} (e : exn) : M A := fun self => (Raise e, self).
Definition bind {A C} (m : M A) (k : A -> M C) : M C :=
  fun self =>
    match m self with
    | (Return a, self') => k a self'
    | (Raise e, self') => (Raise e, self')
    end.
Definition get : M ChatMessageFilter := fun self => (Return self, self).
Definition put (self' : ChatMessageFilter) : M unit := fun _ => (Return tt, self').
(** [try: m except ... as e: handler e] *)
Definition try_except {A} (m : M A) (handler : exn -> M A) : M A :=
  fun self =>
    match m self with
    | (Return a, self') => (Return a, self')
    | (Raise e, self') => handler e self'
    end.

Notation "x <- m ;; k" := (bind m (fun x => k))
  (at level 100, m at next level, right associativity).
Notation "m ;;; k" := (bind m (fun _ => k))
  (at level 100, right associativity).

(** Attribute assignments. *)
Definition with_curse_words (ws : gset pystr) (self : ChatMessageFilter) :=
  {| filter_level := filter_level self; curse_words := ws;
     replacement_char := replacement_char self;
     max_message_length := max_message_length self;
     min_message_length := min_message_length self;
     total_messages_processed := total_messages_processed self;
     total_words_filtered := total_words_filtered self |}.
Definition with_replacement_char (r : pystr) (self : ChatMessageFilter) :=
  {| filter_level := filter_level self; curse_words := curse_words self;
     replacement_char := r;
     max_message_length := max_message_length self;
     min_message_length := min_message_length self;
     total_messages_processed := total_messages_processed self;
     total_words_filtered := total_words_filtered self |}.
Definition with_filter_level (l : FilterLevel) (self : ChatMessageFilter) :=
  {| filter_level := l; curse_words := curse_words self;
     replacement_char := replacement_char self;
     max_message_length := max_message_length self;
     min_message_length := min_message_length self;
     total_messages_processed := total_messages_processed self;
     total_words_filtered := total_words_filtered self |}.
Definition with_statistics (processed filtered : Z) (self : ChatMessageFilter) :=
  {| filter_level := filter_level self; curse_words := curse_words self;
     replacement_char := replacement_char self;
     max_message_length := max_message_length self;
     min_message_length := min_message_length self;
     total_messages_processed := processed;
     total_words_filtered := filtered |}.

(** What [open] and [json.load] make of the word file. *)
Inductive word_file :=
| Missing
| Unreadable
| Malformed
| Parsed (data : json).

(** The dictionary returned by [get_filter_report]; the vacuous report has
    no ['message_length'] key. *)
Record FilterReport := {
  original_message : pystr;
  filtered_message : pystr;
  inappropriate_words : list pystr;
  total_words : Z;
  filtered_words_count : Z;
  is_clean : bool;
  report_filter_level : pystr;
  message_length : option Z
}.

(** The dictionary returned by [get_statistics]. *)
Record Statistics := {
  stat_total_messages_processed : Z;
  stat_total_words_filtered : Z;
  stat_curse_words_count : Z;
  stat_filter_level : pystr;
  stat_replacement_character : pystr
}.

Section Engine.

Context {B : Builtins}.

(** Truth value of a JSON value ([if word]). *)
Definition truthy (v : json) : bool :=
  match v with
  | JNull => false
  | JBool b => b
  | JInt z => negb (z =? 0)%Z
  | JFloat t _ => t
  | JStr s => negb (bool_decide (s = []))
  | JList l => negb (bool_decide (l = []))
  | JDict d => negb (bool_decide (d = []))
  end.

(** [str(word)] *)
Definition str (v : json) : pystr :=
  match v with
  | JNull => py "None"
  | JBool true => py "True"
  | JBool false => py "False"
  | JInt z => py (NilEmpty.string_of_int (Z.to_int z))
  | JFloat _ text => text
  | JStr s => s
  | JList _ | JDict _ => str_container v
  end.

(** [set(str(word).lower().strip() for word in items if word)] *)
Definition word_set (items : list json) : gset pystr :=
  list_to_set (List.map (fun word => strip (lower (str word))) (List.filter truthy items)).

(** [key in data], then [data[key]]; of two bindings of one key the later
    one counts. *)
Fixpoint dict_get (data : list (pystr * json)) (key : pystr) : option json :=
  match data with
  | [] => None
  | (k, v) :: data' =>
      match dict_get data' key with
      | Some v' => Some v'
      | None => if bool_decide (k = key) then Some v else None
      end
  end.

Definition common_keys : list pystr :=
  [py "words"; py "curse"; py "curse_words"; py "bad_words"; py "profanity"].

(** The [for key in [...]: ... break ... else: ...] loop: the list under
    the first common key that is present and holds a list. *)
Fixpoint first_listed (keys : list pystr) (data : list (pystr * json)) : option (list json) :=
  match keys with
  | [] => None
  | key :: keys' =>
      match dict_get data key with
      | Some (JList items) => Some items
      | _ => first_listed keys' data
      end
  end.

Definition open_and_load (file : word_file) : M json :=
  match file with
  | Missing => raise FileNotFoundError
  | Unreadable => raise OSError
  | Malformed => raise JSONDecodeError
  | Parsed data => ret data
  end.

Definition assign_curse_words (ws : gset pystr) : M unit :=
  self <- get ;; put (with_curse_words ws self).

Definition _load_curse_words (file : word_file) : M unit :=
  try_except
    (data <- open_and_load file ;;
     match data with
     | JList items => assign_curse_words (word_set items)
     | JDict bindings =>
         match first_listed common_keys bindings with
         | Some items => assign_curse_words (word_set items)
         | None => assign_curse_words (word_set (List.map (fun kv => JStr (fst kv)) bindings))
         end
     | _ => raise ValueError
     end ;;;
     self <- get ;;
     if bool_decide (size (curse_words self) = 0%nat) then raise ValueError
     else ret tt)
    (fun e =>
       match e with
       | FileNotFoundError => raise FileNotFoundError
       | JSONDecodeError => raise ValueError
       | _ => raise Exception
       end).

(** The attributes as [__init__] assigns them before it loads the file. *)
Definition initial_attributes (level : FilterLevel) : ChatMessageFilter :=
  {| filter_level := level; curse_words := ∅; replacement_char := py "*";
     max_message_length := 1000; min_message_length := 1;
     total_messages_processed := 0; total_words_filtered := 0 |}.

(** [ChatMessageFilter(curse_words_file, filter_level)] *)
Definition __init__ (curse_words_file : word_file) (level : FilterLevel) : ChatMessageFilter :=
  snd (try_except (_load_curse_words curse_words_file) (fun _ => ret tt)
                  (initial_attributes level)).

Definition add_curse_word (word : pyarg) : M bool :=
  match word with
  | NotStr | Str [] => raise ValueError
  | Str word =>
      let word_lower := strip (lower word) in
      self <- get ;;
      if bool_decide (word_lower ∈ curse_words self) then ret false
      else put (with_curse_words (curse_words self ∪ {[word_lower]}) self) ;;; ret true
  end.

Definition remove_curse_word (word : pyarg) : M bool :=
  match word with
  | NotStr | Str [] => ret false
  | Str word =>
      let word_lower := strip (lower word) in
      self <- get ;;
      if bool_decide (word_lower ∈ curse_words self)
      then put (with_curse_words (curse_words self ∖ {[word_lower]}) self) ;;; ret true
      else ret false
  end.

Definition set_replacement_char (char : pystr) : M unit :=
  if bool_decide (length char ≠ 1%nat) then raise ValueError
  else self <- get ;; put (with_replacement_char char self).

(** The argument is [None] when it is not a [FilterLevel]. *)
Definition set_filter_level (level : option FilterLevel) : M unit :=
  match level with
  | None => raise ValueError
  | Some l => self <- get ;; put (with_filter_level l self)
  end.

Definition _normalize_word (word : pystr) : pystr :=
  List.filter ascii_letter (lower word).

(** The dict [substitutions], in the order of its items. *)
Definition substitutions : list (N * N) :=
  [(121, 117); (49, 105); (51, 101); (52, 97); (53, 115);
   (55, 116); (64, 97); (36, 115); (33, 105)]%N.

(** The string tested by [_detect_variations]. *)
Definition variation_form (word : pystr) : pystr :=
  _normalize_word
    (fold_left (fun normalized '(digit, letter) => replace digit letter normalized)
               substitutions (lower word)).

Definition _detect_variations (self : ChatMessageFilter) (word : pystr) : bool :=
  bool_decide (variation_form word ∈ curse_words self).

Definition _should_filter_word (self : ChatMessageFilter) (word : pystr) : bool :=
  match word with
  | [] => false
  | _ =>
      let word_clean := _normalize_word word in
      if bool_decide (word_clean ∈ curse_words self) then true
      else if bool_decide (filter_level self ∈ [STRICT; MODERATE])
           then _detect_variations self word
           else false
  end.

Definition detect_inappropriate_words (self : ChatMessageFilter) (message : pyarg) : list pystr :=
  match message with
  | NotStr | Str [] => []
  | Str message => List.filter (_should_filter_word self) (findall_words message)
  end.

(** The closure [replace_word]; [filtered_count] is its [nonlocal]. *)
Definition replace_word (self : ChatMessageFilter) (preserve_length : bool)
           (word : pystr) (filtered_count : Z) : pystr * Z :=
  if _should_filter_word self word then
    (if preserve_length then str_mul (replacement_char self) (length word)
     else str_mul (replacement_char self) 3,
     (filtered_count + 1)%Z)
  else (word, filtered_count).

Definition filter_message (message : pyarg) (preserve_length : bool) : M pystr :=
  match message with
  | NotStr | Str [] => raise ValueError
  | Str message =>
      self <- get ;;
      if (Z.of_nat (length message) >? max_message_length self)%Z then raise ValueError
      else if (Z.of_nat (length message) <? min_message_length self)%Z then raise ValueError
      else
        put (with_statistics (total_messages_processed self + 1)
                             (total_words_filtered self) self) ;;;
        self <- get ;;
        let '(filtered_message, filtered_count) :=
          sub_words (replace_word self preserve_length) message 0%Z in
        put (with_statistics (total_messages_processed self)
                             (total_words_filtered self + filtered_count) self) ;;;
        ret filtered_message
  end.

Definition get_filter_report (message : pyarg) : M FilterReport :=
  match message with
  | NotStr | Str [] =>
      self <- get ;;
      ret {| original_message := []; filtered_message := [];
             inappropriate_words := []; total_words := 0;
             filtered_words_count := 0; is_clean := true;
             report_filter_level := FilterLevel_value (filter_level self);
             message_length := None |}
  | Str text =>
      self <- get ;;
      let inappropriate := detect_inappropriate_words self message in
      filtered <- filter_message message true ;;
      self <- get ;;
      ret {| original_message := text; filtered_message := filtered;
             inappropriate_words := inappropriate;
             total_words := Z.of_nat (length (findall_words text));
             filtered_words_count := Z.of_nat (length inappropriate);
             is_clean := bool_decide (length inappropriate = 0%nat);
             report_filter_level := FilterLevel_value (filter_level self);
             message_length := Some (Z.of_nat (length text)) |}
  end.

Definition is_message_clean (self : ChatMessageFilter) (message : pyarg) : bool :=
  bool_decide (length (detect_inappropriate_words self message) = 0%nat).

Definition get_statistics (self : ChatMessageFilter) : Statistics :=
  {| stat_total_messages_processed := total_messages_processed self;
     stat_total_words_filtered := total_words_filtered self;
     stat_curse_words_count := Z.of_nat (size (curse_words self));
     stat_filter_level := FilterLevel_value (filter_level self);
     stat_replacement_character := replacement_char self |}.

Definition reset_statistics : M unit :=
  self <- get ;; put (with_statistics 0 0 self).

Definition get_word_severity (self : ChatMessageFilter) (word : pystr) : pystr :=
  if _should_filter_word self word then py "offensive" else py "clean".

End Engine.

(** ** Exporting and batch filtering *)

(** [a <= b] on [str]: code point by code point, a proper prefix first. *)
Fixpoint str_leb (a b : pystr) : bool :=
  match a, b with
  | [], _ => true
  | _ :: _, [] => false
  | x :: a', y :: b' =>
      if (x <? y)%N then true
      else if (x =? y)%N then str_leb a' b'
      else false
  end.

Definition str_le (a b : pystr) : Prop := str_leb a b = true.

#[global] Instance str_le_dec (a b : pystr) : Decision (str_le a b).
Proof. unfold str_le. apply _. Defined.

(** [sorted(words)] *)
Definition sorted (words : list pystr) : list pystr := merge_sort str_le words.

Section ExportAndBatch.

Context {B : Builtins}.

(** [export_curse_words(file_path)]. The argument tells whether the file
    can be opened for writing; the result is the document written to it.
    [IOError] is Python's [OSError]. *)
Definition export_curse_words (writable : bool) : M json :=
  try_except
    (if writable
     then self <- get ;; ret (JList (List.map JStr (sorted (elements (curse_words self)))))
     else raise OSError)
    (fun _ => raise OSError).

(** The list comprehension of [batch_filter_messages]: the messages are
    filtered from left to right, anything that is not a string gives [""]. *)
Fixpoint batch_items (messages : list pyarg) : M (list pystr) :=
  match messages with
  | [] => ret []
  | msg :: rest =>
      first <- match msg with
               | Str _ => filter_message msg true
               | NotStr => ret []
               end ;;
      others <- batch_items rest ;;
      ret (first :: others)
  end.

(** The argument is [None] when it is not a list. *)
Definition batch_filter_messages (messages : option (list pyarg)) : M (list pystr) :=
  match messages with
  | None => raise ValueError
  | Some messages => batch_items messages
  end.

End ExportAndBatch.

(** ** Notions used to state the properties *)

Section Notions.

Context {B : Builtins}.

(** The text a list of pieces was cut from. *)
Definition unpieces (ps : list piece) : pystr :=
  flat_map (fun p => match p with Word w => w | Sep c => [c] end) ps.

Definition words_of (ps : list piece) : list pystr :=
  flat_map (fun p => match p with Word w => [w] | Sep _ => [] end) ps.

Definition starts_with_word (ps : list piece) : bool :=
  match ps with
  | Word _ :: _ => true
  | _ => false
  end.

(** Pieces as [pieces] produces them: words are non-empty runs of word
    characters, no two words touch, separators are not word characters. *)
Fixpoint well_cut (ps : list piece) : Prop :=
  match ps with
  | [] => True
  | Sep c :: ps' => is_word c = false /\ well_cut ps'
  | Word w :: ps' =>
      w <> [] /\ forallb is_word w = true /\ starts_with_word ps' = false /\ well_cut ps'
  end.

(** The table [substitutions] as a function of one character. *)
Definition substitute (c : N) : N :=
  match List.find (fun '(digit, _) => (c =? digit)%N) substitutions with
  | Some (_, letter) => letter
  | None => c
  end.

(** What [replace_word] returns for a match. *)
Definition censor (self : ChatMessageFilter) (preserve_length : bool) (word : pystr) : pystr :=
  if _should_filter_word self word then
    if preserve_length then str_mul (replacement_char self) (length word)
    else str_mul (replacement_char self) 3
  else word.

Definition censor_pieces (self : ChatMessageFilter) (preserve_length : bool)
           (ps : list piece) : pystr :=
  flat_map (fun p => match p with
                     | Word w => censor self preserve_length w
                     | Sep c => [c]
                     end) ps.

(** The tokens of a message that the match decision judges offending. *)
Definition offending_words (self : ChatMessageFilter) (message : pystr) : list pystr :=
  List.filter (_should_filter_word self) (findall_words message).

(** A message that passes the checks of [filter_message]. *)
Definition valid_message (self : ChatMessageFilter) (message : pystr) : Prop :=
  message <> [] /\
  (Z.of_nat (length message) <= max_message_length self)%Z /\
  (min_message_length self <= Z.of_nat (length message))%Z.

(** Two engines with the same block list and configuration. *)
Definition same_policy (a b : ChatMessageFilter) : Prop :=
  filter_level a = filter_level b /\ curse_words a = curse_words b /\
  replacement_char a = replacement_char b /\
  max_message_length a = max_message_length b /\
  min_message_length a = min_message_length b.

(** The words a parsed document yields, if it is a list or a dict. *)
Definition document_words (data : json) : option (gset pystr) :=
  match data with
  | JList items => Some (word_set items)
  | JDict bindings =>
      Some (match first_listed common_keys bindings with
            | Some items => word_set items
            | None => word_set (List.map (fun kv => JStr (fst kv)) bindings)
            end)
  | _ => None
  end.

(** Loading the word file raises, in the constructor. *)
Definition load_fails (file : word_file) (level : FilterLevel) : Prop :=
  exists e, fst (_load_curse_words file (initial_attributes level)) = Raise e.

(** The normalizer as the specification words it: strip every character
    that is not an ASCII letter, then lowercase. *)
Definition normalize_spec (word : pystr) : pystr :=
  lower (List.filter ascii_letter word).

Definition ascii_only (s : pystr) : Prop := forallb is_ascii s = true.

(** A call of a public method (or of the loader) on the engine. *)
Inductive call :=
| Call_load_curse_words (file : word_file)
| Call_add_curse_word (word : pyarg)
| Call_remove_curse_word (word : pyarg)
| Call_set_replacement_char (char : pystr)
| Call_set_filter_level (level : option FilterLevel)
| Call_filter_message (message : pyarg) (preserve_length : bool)
| Call_get_filter_report (message : pyarg)
| Call_reset_statistics.

(** The attributes after a call, whether it returned or raised. *)
Definition perform (c : call) (self : ChatMessageFilter) : ChatMessageFilter :=
  match c with
  | Call_load_curse_words file => snd (_load_curse_words file self)
  | Call_add_curse_word word => snd (add_curse_word word self)
  | Call_remove_curse_word word => snd (remove_curse_word word self)
  | Call_set_replacement_char char => snd (set_replacement_char char self)
  | Call_set_filter_level level => snd (set_filter_level level self)
  | Call_filter_message message preserve_length =>
      snd (filter_message message preserve_length self)
  | Call_get_filter_report message => snd (get_filter_report message self)
  | Call_reset_statistics => snd (reset_statistics self)
  end.

Definition run (calls : list call) (self : ChatMessageFilter) : ChatMessageFilter :=
  fold_left (fun self c => perform c self) calls self.

(** An engine as a program can hold it: constructed, then used. *)
Definition reachable (self : ChatMessageFilter) : Prop :=
  exists file level calls, self = run calls (__init__ file level).

Definition returns {A} (r : outcome A * ChatMessageFilter) : bool :=
  match fst r with
  | Return _ => true
  | Raise _ => false
  end.

(** The [filter_message] call a call makes: its own, or the one inside
    [get_filter_report] for a non-empty string. *)
Definition filter_call (c : call) : option (pyarg * bool) :=
  match c with
  | Call_filter_message message preserve_length => Some (message, preserve_length)
  | Call_get_filter_report (Str (c0 :: m)) => Some (Str (c0 :: m), true)
  | _ => None
  end.

(** One if the call makes a [filter_message] call that returns. *)
Definition filters_one (c : call) (self : ChatMessageFilter) : nat :=
  match filter_call c with
  | Some (message, preserve_length) =>
      if returns (filter_message message preserve_length self) then 1 else 0
  | None => 0
  end.

(** The number of tokens judged offending in that call's message. *)
Definition judges (c : call) (self : ChatMessageFilter) : nat :=
  match filter_call c with
  | Some (message, preserve_length) =>
      if returns (filter_message message preserve_length self)
      then length (detect_inappropriate_words self message) else 0
  | None => 0
  end.

(** Over a sequence of calls, each taken in the state it runs in: the
    number of successful [filter_message] calls, and the number of tokens
    judged offending in them. *)
Fixpoint successful_filters (calls : list call) (self : ChatMessageFilter) : nat :=
  match calls with
  | [] => 0
  | c :: calls' => filters_one c self + successful_filters calls' (perform c self)
  end.

Fixpoint judged_offending (calls : list call) (self : ChatMessageFilter) : nat :=
  match calls with
  | [] => 0
  | c :: calls' => judges c self + judged_offending calls' (perform c self)
  end.

Definition no_reset (calls : list call) : Prop :=
  Forall (fun c => c <> Call_reset_statistics) calls.

(** The pieces of a filtered text, for the replacement character [r] and
    preserved lengths: an offending word becomes one word of [r]s when [r]
    is a word character, and as many separators otherwise. *)
Definition censor_piece (self : ChatMessageFilter) (r : N) (p : piece) : list piece :=
  match p with
  | Word w =>
      if _should_filter_word self w then
        if is_word r then [Word (repeat r (length w))]
        else List.map Sep (repeat r (length w))
      else [Word w]
  | Sep c => [Sep c]
  end.

Definition recut (self : ChatMessageFilter) (r : N) (ps : list piece) : list piece :=
  flat_map (censor_piece self r) ps.

(** A stored word as the specification describes it: non-empty and made
    of lowercase ASCII letters only. *)
Definition normalized_word (w : pystr) : Prop :=
  w <> [] /\ forallb ascii_lower w = true.

(** [w.strip() == w] *)
Definition trimmed (w : pystr) : Prop := lstrip w = w /\ rstrip w = w.

Definition no_ascii_upper (w : pystr) : Prop :=
  forallb (fun c => negb (ascii_upper c)) w = true.

(** The lowercase table never yields an ASCII capital, as holds of the
    Unicode one. *)
Definition lowercase_table : Prop :=
  forall before c after x,
    is_ascii c = false -> In x (uni_lower before c after) -> ascii_upper x = false.

(** A word as the engine stores it: some text, lowercased and trimmed. *)
Definition lowered_and_stripped (w : pystr) : Prop :=
  exists s, w = strip (lower s).

(** A sequence of [filter_message] calls on the given messages. *)
Definition filter_calls (inputs : list (pystr * bool)) : list call :=
  List.map (fun i => Call_filter_message (Str (fst i)) (snd i)) inputs.

End Notions.

(** The engine of the scenarios: built from the document
    ["suka", "blyat"] at the default strictness, with [plain_builtins]. *)
Definition suka_blyat : ChatMessageFilter :=
  @__init__ plain_builtins
            (Parsed (JList [JStr (py "suka"); JStr (py "blyat")])) MODERATE.

(** The fixture [filter_instance] of [test_chat_filter.py]: built from the
    document [{"curse": ["blyat", "suka", "enangnikiga", "qanju", "iflos"]}]. *)
Definition filter_instance : ChatMessageFilter :=
  @__init__ plain_builtins
            (Parsed (JDict [(py "curse",
                             JList [JStr (py "blyat"); JStr (py "suka");
                                    JStr (py "enangnikiga"); JStr (py "qanju");
                                    JStr (py "iflos")])]))
            MODERATE.

(** ** Notions for the further properties *)

(** Lowercase of an ASCII character. *)
Definition ascii_fold (c : N) : N := if ascii_upper c then (c + 32)%N else c.

(** Two ASCII texts that differ at most in the case of their letters. *)
Definition same_ignoring_case (a b : pystr) : Prop :=
  ascii_only a /\ ascii_only b /\ List.map ascii_fold a = List.map ascii_fold b.

(** The end of a text is a word boundary for what follows it, and the
    start of a text is one for what precedes it. *)
Definition ends_at_boundary {B : Builtins} (a : pystr) : Prop :=
  match rev a with
  | [] => True
  | c :: _ => is_word c = false
  end.

Definition starts_at_boundary {B : Builtins} (b : pystr) : Prop :=
  match b with
  | [] => True
  | c :: _ => is_word c = false
  end.

(** The string items of a batch. *)
Definition strings (messages : list pyarg) : list pystr :=
  flat_map (fun msg => match msg with Str m => [m] | NotStr => [] end) messages.

(** What [batch_filter_messages] returns for one item. *)
Definition batch_text {B : Builtins} (self : ChatMessageFilter) (msg : pyarg) : pystr :=
  match msg with
  | NotStr => []
  | Str m => censor_pieces self true (pieces m)
  end.

(** What every engine that a program can hold satisfies. *)
Definition well_configured (self : ChatMessageFilter) : Prop :=
  length (replacement_char self) = 1%nat
  /\ max_message_length self = 1000%Z
  /\ min_message_length self = 1%Z
  /\ (0 <= total_messages_processed self)%Z
  /\ (0 <= total_words_filtered self)%Z
  /\ (total_words_filtered self <= 500 * total_messages_processed self)%Z.

(** What a call leaves alone: filtering, reporting and resetting keep the
    block list and the configuration; changes of the block list keep all
    the rest; each setter changes its own attribute only. *)
Definition frame_of (c : call) (self after : ChatMessageFilter) : Prop :=
  match c with
  | Call_filter_message _ _ | Call_get_filter_report _ | Call_reset_statistics =>
      same_policy after self
  | Call_load_curse_words _ | Call_add_curse_word _ | Call_remove_curse_word _ =>
      after = with_curse_words (curse_words after) self
  | Call_set_replacement_char _ =>
      after = with_replacement_char (replacement_char after) self
  | Call_set_filter_level _ =>
      after = with_filter_level (filter_level after) self
  end.

(** * Properties *)

(** ** Strings and the word pattern *)

Section StringFacts.

Context {B : Builtins}.

Lemma unpieces_pieces (s : pystr) : unpieces (pieces s) = s.
Proof.
  induction s as [|c s IH]; [reflexivity|].
  simpl. destruct (is_word c).
  - destruct (pieces s) as [|[w|c'] ps]; simpl in *; now rewrite <- IH.
  - simpl. now rewrite IH.
Qed.

Lemma well_cut_pieces (s : pystr) : well_cut (pieces s).
Proof.
  induction s as [|c s IH]; [exact I|].
  simpl. destruct (is_word c) eqn:Hc.
  - destruct (pieces s) as [|[w|c'] ps]; simpl in *.
    + repeat split; [discriminate | now rewrite Hc].
    + destruct IH as (Hw & Hall & Hst & Hps).
      repeat split; [discriminate | now rewrite Hc | assumption | assumption].
    + repeat split; [discriminate | now rewrite Hc | tauto | tauto].
  - simpl. split; assumption.
Qed.

(** A run of word characters in front of a text that does not start with
    a word character is cut off as one word. *)
Lemma pieces_word_app (w rest : pystr) :
  w <> [] -> forallb is_word w = true -> starts_with_word (pieces rest) = false ->
  pieces (w ++ rest) = Word w :: pieces rest.
Proof.
  induction w as [|c w IH]; [congruence|].
  intros _ Hall Hrest. simpl in Hall. apply andb_true_iff in Hall as [Hc Hw].
  simpl. rewrite Hc. destruct w as [|c' w].
  - simpl. destruct (pieces rest) as [|[?|?] ?]; [reflexivity|discriminate|reflexivity].
  - rewrite IH; [reflexivity|discriminate|assumption|assumption].
Qed.

(** Cutting is determined by the text: a well-cut list of pieces is the
    cut of its own text. *)
Lemma pieces_unpieces (ps : list piece) : well_cut ps -> pieces (unpieces ps) = ps.
Proof.
  induction ps as [|[w|c] ps IH]; [reflexivity| |].
  - intros (Hne & Hall & Hst & Hps). simpl.
    rewrite pieces_word_app; rewrite ?IH; auto.
  - intros (Hc & Hps). simpl. rewrite Hc. now rewrite IH.
Qed.

(** The words found are exactly the maximal runs: each is non-empty and
    made of word characters only. *)
Lemma words_of_well_cut (ps : list piece) (w : pystr) :
  well_cut ps -> In w (words_of ps) -> w <> [] /\ forallb is_word w = true.
Proof.
  induction ps as [|[w'|c] ps IH]; simpl; [tauto| |].
  - intros (Hne & Hall & _ & Hps) [<-|Hin]; auto.
  - intros (_ & Hps) Hin. auto.
Qed.

Lemma findall_words_nonempty (s w : pystr) : In w (findall_words s) -> w <> [].
Proof.
  intros Hin. eapply words_of_well_cut; [apply (well_cut_pieces s)|exact Hin].
Qed.

Lemma str_mul_single (r : N) (n : nat) : str_mul [r] n = repeat r n.
Proof. induction n as [|n IH]; simpl; [reflexivity|now rewrite IH]. Qed.

Lemma length_str_mul_single (r : N) (n : nat) : length (str_mul [r] n) = n.
Proof. rewrite str_mul_single. apply repeat_length. Qed.

End StringFacts.

(** ** The match decision and the rewrite *)

Section EngineFacts.

Context {B : Builtins}.

Lemma should_filter_unfold (self : ChatMessageFilter) (word : pystr) :
  word <> [] ->
  _should_filter_word self word =
    bool_decide (_normalize_word word ∈ curse_words self)
    || (bool_decide (filter_level self <> LENIENT)
        && bool_decide (variation_form word ∈ curse_words self)).
Proof.
  intros Hne. destruct word as [|c w]; [congruence|].
  unfold _should_filter_word, _detect_variations.
  destruct (bool_decide (_normalize_word (c :: w) ∈ curse_words self)); [reflexivity|].
  destruct (filter_level self); reflexivity.
Qed.

(** The decision reads the block list and the strictness only. *)
Lemma should_filter_same_policy (a b : ChatMessageFilter) (word : pystr) :
  filter_level a = filter_level b -> curse_words a = curse_words b ->
  _should_filter_word a word = _should_filter_word b word.
Proof.
  intros Hl Hw. destruct word as [|c w]; [reflexivity|].
  rewrite !should_filter_unfold by discriminate. now rewrite Hl, Hw.
Qed.

Lemma detect_unfold (self : ChatMessageFilter) (message : pystr) :
  detect_inappropriate_words self (Str message) = offending_words self message.
Proof. destruct message; reflexivity. Qed.

(** [re.sub] with the closure [replace_word]: the text is censored word by
    word, and the counter grows by the number of offending matches. *)
Lemma sub_pieces_replace_word (self : ChatMessageFilter) (pl : bool)
      (ps : list piece) (n : Z) :
  sub_pieces (replace_word self pl) ps n =
    (censor_pieces self pl ps,
     (n + Z.of_nat (length (List.filter (_should_filter_word self) (words_of ps))))%Z).
Proof.
  revert n. induction ps as [|[w|c] ps IH]; intros n; simpl.
  - f_equal. lia.
  - unfold replace_word, censor.
    destruct (_should_filter_word self w); rewrite IH; simpl; f_equal; lia.
  - now rewrite IH.
Qed.

(** [filter_message] on a message that passes its checks. *)
Lemma filter_message_valid (self : ChatMessageFilter) (pl : bool) (message : pystr) :
  valid_message self message ->
  filter_message (Str message) pl self =
    (Return (censor_pieces self pl (pieces message)),
     with_statistics
       (total_messages_processed self + 1)
       (total_words_filtered self + Z.of_nat (length (offending_words self message)))
       self).
Proof.
  intros (Hne & Hmax & Hmin). destruct message as [|c m]; [congruence|].
  unfold filter_message, bind, get, put, ret, raise.
  destruct (Z.gtb_spec (Z.of_nat (length (c :: m))) (max_message_length self)); [lia|].
  destruct (Z.ltb_spec (Z.of_nat (length (c :: m))) (min_message_length self)); [lia|].
  unfold sub_words. rewrite sub_pieces_replace_word.
  cbv beta iota. unfold offending_words, findall_words, words_of.
  erewrite (filter_ext (_should_filter_word _) (_should_filter_word self));
    [reflexivity|].
  intros w. now apply should_filter_same_policy.
Qed.

(** [filter_message] on every other argument. *)
Lemma filter_message_invalid (self : ChatMessageFilter) (pl : bool) (message : pyarg) :
  (forall m, message = Str m -> ~ valid_message self m) ->
  filter_message message pl self = (Raise ValueError, self).
Proof.
  intros Hbad. destruct message as [|[|c m]]; [reflexivity|reflexivity|].
  unfold filter_message, bind, get, put, ret, raise.
  destruct (Z.gtb_spec (Z.of_nat (length (c :: m))) (max_message_length self));
    [reflexivity|].
  destruct (Z.ltb_spec (Z.of_nat (length (c :: m))) (min_message_length self));
    [reflexivity|].
  exfalso. apply (Hbad (c :: m) eq_refl). repeat split; [discriminate|lia|lia].
Qed.

Lemma valid_message_dec (self : ChatMessageFilter) (m : pystr) :
  valid_message self m \/ ~ valid_message self m.
Proof.
  unfold valid_message. destruct m as [|c m]; [right; tauto|].
  destruct (Z_le_gt_dec (Z.of_nat (length (c :: m))) (max_message_length self));
    [|right; lia].
  destruct (Z_le_gt_dec (min_message_length self) (Z.of_nat (length (c :: m))));
    [left; repeat split; [discriminate|lia|lia]|right; lia].
Qed.

(** Either way [filter_message] leaves the block list and the
    configuration as they were. *)
Lemma filter_message_same_policy (self : ChatMessageFilter) (pl : bool) (message : pyarg) :
  same_policy (snd (filter_message message pl self)) self.
Proof.
  destruct message as [|m].
  - rewrite filter_message_invalid by discriminate. repeat split.
  - destruct (valid_message_dec self m) as [Hv|Hv].
    + rewrite filter_message_valid by assumption. repeat split.
    + rewrite filter_message_invalid; [repeat split|].
      intros m' [= <-]. assumption.
Qed.

End EngineFacts.

(** ** Loading the block list *)

Section Loading.

Context {B : Builtins}.

Lemma assign_then_check (ws : gset pystr) (self : ChatMessageFilter) :
  (assign_curse_words ws ;;;
   self' <- get ;;
   if bool_decide (size (curse_words self') = 0%nat) then raise ValueError else ret tt) self
  = if bool_decide (ws = ∅) then (Raise ValueError, with_curse_words ∅ self)
    else (Return tt, with_curse_words ws self).
Proof.
  unfold assign_curse_words, bind, get, put, raise, ret. simpl.
  destruct (bool_decide_reflect (ws = ∅)) as [->|Hne].
  - reflexivity.
  - rewrite bool_decide_eq_false_2; [reflexivity|].
    intros Hs. apply size_empty_iff in Hs. apply Hne. now apply leibniz_equiv.
Qed.

(** [_load_curse_words] in closed form: the words are assigned before the
    emptiness check, and every exception raised in the body that is not a
    missing file or a decoding error leaves as a plain [Exception]. *)
Lemma load_curse_words_unfold (file : word_file) (self : ChatMessageFilter) :
  _load_curse_words file self =
    match file with
    | Missing => (Raise FileNotFoundError, self)
    | Unreadable => (Raise Exception, self)
    | Malformed => (Raise ValueError, self)
    | Parsed data =>
        match document_words data with
        | None => (Raise Exception, self)
        | Some ws =>
            if bool_decide (ws = ∅) then (Raise Exception, with_curse_words ∅ self)
            else (Return tt, with_curse_words ws self)
        end
    end.
Proof.
  destruct file as [| | |data]; try reflexivity.
  unfold _load_curse_words, try_except, open_and_load.
  unfold bind at 1. unfold ret at 1.
  destruct data as [| | | | |items|bindings]; try reflexivity.
  - rewrite assign_then_check. simpl.
    destruct (bool_decide (word_set items = ∅)); reflexivity.
  - unfold document_words.
    destruct (first_listed common_keys bindings) as [items|];
      rewrite assign_then_check;
      match goal with |- context [bool_decide ?P] => destruct (bool_decide P) end;
      reflexivity.
Qed.

Lemma init_unfold (file : word_file) (level : FilterLevel) :
  __init__ file level =
    match file with
    | Parsed data =>
        match document_words data with
        | Some ws => with_curse_words ws (initial_attributes level)
        | None => initial_attributes level
        end
    | _ => initial_attributes level
    end.
Proof.
  unfold __init__, try_except. rewrite load_curse_words_unfold.
  destruct file as [| | |data]; try reflexivity.
  destruct (document_words data) as [ws|]; [|reflexivity].
  destruct (bool_decide_reflect (ws = ∅)) as [->|Hne]; reflexivity.
Qed.

Lemma load_fails_iff (file : word_file) (level : FilterLevel) :
  load_fails file level <->
  match file with
  | Parsed data =>
      match document_words data with
      | Some ws => ws = ∅
      | None => True
      end
  | _ => True
  end.
Proof.
  unfold load_fails. rewrite load_curse_words_unfold.
  destruct file as [| | |data]; simpl; try (split; eauto; fail).
  destruct (document_words data) as [ws|]; simpl; [|split; eauto].
  destruct (bool_decide_reflect (ws = ∅)) as [->|Hne]; simpl.
  - split; eauto.
  - split; [intros [e He]; discriminate|contradiction].
Qed.

Lemma detect_empty_block_list (self : ChatMessageFilter) (message : pyarg) :
  curse_words self = ∅ -> detect_inappropriate_words self message = [].
Proof.
  intros Hempty. destruct message as [|m]; [reflexivity|].
  rewrite detect_unfold. unfold offending_words.
  induction (findall_words m) as [|w ws IH]; [reflexivity|].
  simpl. rewrite IH.
  destruct w as [|c w]; [reflexivity|].
  rewrite should_filter_unfold by discriminate. rewrite Hempty.
  rewrite !bool_decide_eq_false_2 by set_solver.
  now rewrite andb_false_r.
Qed.

(** C3. When loading the word source fails, the constructed engine has an
    empty block list: a missing or unreadable file, a malformed document, a
    document that is neither a list nor a dict, and a document that yields
    no word (such as [{"words": []}]) all fail. An engine with an empty
    block list detects nothing in any message and reports every message
    clean; so does the engine built from [{"words": []}] on ["blyat"]. *)
Theorem failed_load_leaves_block_list_empty :
  (forall file level, load_fails file level -> curse_words (__init__ file level) = ∅)
  /\ (forall level,
        load_fails Missing level /\ load_fails Unreadable level
        /\ load_fails Malformed level
        /\ (forall data, document_words data = None -> load_fails (Parsed data) level)
        /\ (forall data, document_words data = Some ∅ -> load_fails (Parsed data) level)
        /\ load_fails (Parsed (JDict [(py "words", JList [])])) level)
  /\ (forall self message,
        curse_words self = ∅ ->
        detect_inappropriate_words self message = []
        /\ is_message_clean self message = true)
  /\ (forall level,
        is_message_clean (__init__ (Parsed (JDict [(py "words", JList [])])) level)
                         (Str (py "blyat")) = true).
Proof.
  assert (Hclean : forall self message,
             curse_words self = ∅ ->
             detect_inappropriate_words self message = []
             /\ is_message_clean self message = true).
  { intros self message Hempty. unfold is_message_clean.
    rewrite (detect_empty_block_list self message Hempty). split; reflexivity. }
  split; [|split; [|split]].
  - intros file level Hfail. apply load_fails_iff in Hfail.
    rewrite init_unfold. destruct file as [| | |data]; try reflexivity.
    destruct (document_words data) as [ws|]; [|reflexivity].
    simpl. assumption.
  - intros level. repeat split; try (apply load_fails_iff; exact I).
    + intros data Hd. apply load_fails_iff. now rewrite Hd.
    + intros data Hd. apply load_fails_iff. now rewrite Hd.
    + apply load_fails_iff. reflexivity.
  - exact Hclean.
  - intros level. apply Hclean. rewrite init_unfold. reflexivity.
Qed.

End Loading.

(** ** The match decision *)

Section MatchDecision.

Context {B : Builtins}.

Lemma fold_replace_pointwise (table : list (N * N)) (s : pystr) :
  fold_left (fun normalized '(digit, letter) => replace digit letter normalized) table s =
  List.map (fun c => fold_left (fun x '(digit, letter) =>
                                  if (x =? digit)%N then letter else x) table c) s.
Proof.
  revert s. induction table as [|[d l] table IH]; intros s; simpl.
  - now rewrite map_id.
  - rewrite IH. unfold replace. now rewrite map_map.
Qed.

(** No letter put in by the table is itself replaced by a later entry, so
    going through the table entry by entry changes each character once. *)
Lemma substitutions_pointwise (c : N) :
  fold_left (fun x '(digit, letter) => if (x =? digit)%N then letter else x)
            substitutions c = substitute c.
Proof.
  unfold substitute, substitutions. simpl.
  repeat (match goal with
          | |- context [(c =? ?d)%N] => destruct (N.eqb_spec c d); [subst c; reflexivity|]
          end).
  reflexivity.
Qed.

(** The substituted form: every occurrence of a source character of the
    table is replaced, then the result is normalized. *)
Lemma variation_form_pointwise (word : pystr) :
  variation_form word = _normalize_word (List.map substitute (lower word)).
Proof.
  unfold variation_form. rewrite fold_replace_pointwise. f_equal.
  apply map_ext. intros c. apply substitutions_pointwise.
Qed.

(** C2. With "damn" in the block list, the token "D4mn" of the message
    "D4mn th1s 1s b4d" is judged offending under MODERATE strictness: its
    substituted form, in which every occurrence of a source character of
    the table is replaced before normalizing, is "damn". With the block
    list of the scenario (suka, blyat, damn) the same token is not judged
    offending under LENIENT strictness. *)
Theorem d4mn_flagged_unless_lenient :
  In (py "D4mn") (findall_words (py "D4mn th1s 1s b4d"))
  /\ (forall word, variation_form word = _normalize_word (List.map substitute (lower word)))
  /\ variation_form (py "D4mn") = py "damn"
  /\ (forall self,
        py "damn" ∈ curse_words self -> filter_level self = MODERATE ->
        _should_filter_word self (py "D4mn") = true)
  /\ (forall self,
        curse_words self = {[py "suka"; py "blyat"; py "damn"]} ->
        filter_level self = LENIENT ->
        _should_filter_word self (py "D4mn") = false).
Proof.
  assert (Hv : variation_form (py "D4mn") = py "damn") by (vm_compute; reflexivity).
  assert (Hn : _normalize_word (py "D4mn") = py "dmn") by (vm_compute; reflexivity).
  assert (Hne : py "D4mn" <> []) by discriminate.
  split; [vm_compute; tauto|].
  split; [exact variation_form_pointwise|].
  split; [exact Hv|]. split.
  - intros self Hin Hlevel. rewrite should_filter_unfold by exact Hne.
    rewrite Hv, Hlevel. rewrite (bool_decide_eq_true_2 _ Hin).
    simpl. apply orb_true_r.
  - intros self Hwords Hlevel. rewrite should_filter_unfold by exact Hne.
    rewrite Hn, Hlevel, Hwords. vm_compute. reflexivity.
Qed.

(** Under LENIENT strictness only the normalized form counts. *)
Lemma should_filter_lenient (self : ChatMessageFilter) (word : pystr) :
  filter_level self = LENIENT -> word <> [] ->
  _should_filter_word self word = bool_decide (_normalize_word word ∈ curse_words self).
Proof.
  intros Hlevel Hne. rewrite should_filter_unfold by exact Hne.
  rewrite Hlevel. simpl. now rewrite orb_false_r.
Qed.

Lemma should_filter_lenient_least (self : ChatMessageFilter) (level : FilterLevel)
      (word : pystr) :
  _should_filter_word (with_filter_level LENIENT self) word = true ->
  _should_filter_word (with_filter_level level self) word = true.
Proof.
  destruct word as [|c w]; [discriminate|].
  rewrite !should_filter_unfold by discriminate. simpl.
  rewrite orb_false_r. intros ->. reflexivity.
Qed.

Lemma detect_lenient_least (self : ChatMessageFilter) (level : FilterLevel)
      (message : pyarg) :
  detect_inappropriate_words (with_filter_level LENIENT self) message
  ⊆ detect_inappropriate_words (with_filter_level level self) message.
Proof.
  destruct message as [|m]; [done|].
  rewrite !detect_unfold. unfold offending_words.
  intros w Hw. apply list_elem_of_In in Hw. apply list_elem_of_In.
  apply filter_In in Hw as [Hin Hoff]. apply filter_In. split; [exact Hin|].
  now apply should_filter_lenient_least.
Qed.

(** C5. For the same block list, configuration and message, the tokens
    judged offending under LENIENT strictness are among those judged
    offending under MODERATE, and among those judged offending under
    STRICT. *)
Theorem lenient_flags_subset (self : ChatMessageFilter) (message : pyarg) :
  detect_inappropriate_words (with_filter_level LENIENT self) message
  ⊆ detect_inappropriate_words (with_filter_level MODERATE self) message
  /\ detect_inappropriate_words (with_filter_level LENIENT self) message
     ⊆ detect_inappropriate_words (with_filter_level STRICT self) message.
Proof. split; apply detect_lenient_least. Qed.

(** C1. With the block list (suka, blyat), MODERATE strictness, the
    replacement character [*] and the default length bounds, the message
    "Salom suka qalesan blyat" has the offending words suka, blyat in that
    order, and is filtered, preserving lengths, to
    "Salom **** qalesan *****". *)
Theorem scenario_suka_blyat (self : ChatMessageFilter) :
  curse_words self = {[py "suka"; py "blyat"]} ->
  filter_level self = MODERATE ->
  replacement_char self = py "*" ->
  max_message_length self = 1000%Z ->
  min_message_length self = 1%Z ->
  detect_inappropriate_words self (Str (py "Salom suka qalesan blyat"))
    = [py "suka"; py "blyat"]
  /\ fst (filter_message (Str (py "Salom suka qalesan blyat")) true self)
     = Return (py "Salom **** qalesan *****").
Proof.
  destruct self as [level words char hi lo processed filtered]. simpl.
  intros -> -> -> -> ->. split; vm_compute; reflexivity.
Qed.

(** C10. When [filter_message] raises, every attribute of the engine keeps
    its value: block list, strictness, replacement character, length
    bounds and both counters. What it raises is a [ValueError], and only
    for a message that is absent, empty, longer than the maximum or
    shorter than the minimum. *)
Theorem filter_message_raise_keeps_state
        (message : pyarg) (preserve_length : bool) (self : ChatMessageFilter) (e : exn) :
  fst (filter_message message preserve_length self) = Raise e ->
  snd (filter_message message preserve_length self) = self
  /\ e = ValueError
  /\ (forall m, message = Str m -> ~ valid_message self m).
Proof.
  intros Hraise.
  assert (Hbad : forall m, message = Str m -> ~ valid_message self m).
  { intros m -> Hvalid. rewrite filter_message_valid in Hraise by exact Hvalid.
    discriminate. }
  rewrite filter_message_invalid in * by exact Hbad.
  simpl in Hraise. repeat split; [congruence|exact Hbad].
Qed.

End MatchDecision.

(** ** The methods in closed form *)

Section Methods.

Context {B : Builtins}.

Lemma add_curse_word_unfold (c : N) (w : pystr) (self : ChatMessageFilter) :
  add_curse_word (Str (c :: w)) self =
    if bool_decide (strip (lower (c :: w)) ∈ curse_words self)
    then (Return false, self)
    else (Return true,
          with_curse_words (curse_words self ∪ {[strip (lower (c :: w))]}) self).
Proof.
  unfold add_curse_word, bind, get, put, ret.
  destruct (bool_decide (strip (lower (c :: w)) ∈ curse_words self)); reflexivity.
Qed.

Lemma remove_curse_word_unfold (c : N) (w : pystr) (self : ChatMessageFilter) :
  remove_curse_word (Str (c :: w)) self =
    if bool_decide (strip (lower (c :: w)) ∈ curse_words self)
    then (Return true,
          with_curse_words (curse_words self ∖ {[strip (lower (c :: w))]}) self)
    else (Return false, self).
Proof.
  unfold remove_curse_word, bind, get, put, ret.
  destruct (bool_decide (strip (lower (c :: w)) ∈ curse_words self)); reflexivity.
Qed.

Lemma set_replacement_char_unfold (char : pystr) (self : ChatMessageFilter) :
  set_replacement_char char self =
    if bool_decide (length char = 1%nat)
    then (Return tt, with_replacement_char char self)
    else (Raise ValueError, self).
Proof.
  unfold set_replacement_char, bind, get, put, raise.
  destruct (bool_decide_reflect (length char = 1%nat)) as [H|H].
  - rewrite bool_decide_eq_false_2 by (intros Hne; apply Hne, H). reflexivity.
  - rewrite bool_decide_eq_true_2 by exact H. reflexivity.
Qed.

Lemma get_filter_report_valid (self : ChatMessageFilter) (message : pystr) :
  valid_message self message ->
  get_filter_report (Str message) self =
    (Return {| original_message := message;
               filtered_message := censor_pieces self true (pieces message);
               inappropriate_words := detect_inappropriate_words self (Str message);
               total_words := Z.of_nat (length (findall_words message));
               filtered_words_count :=
                 Z.of_nat (length (detect_inappropriate_words self (Str message)));
               is_clean :=
                 bool_decide (length (detect_inappropriate_words self (Str message)) = 0%nat);
               report_filter_level := FilterLevel_value (filter_level self);
               message_length := Some (Z.of_nat (length message)) |},
     snd (filter_message (Str message) true self)).
Proof.
  intros Hvalid. pose proof Hvalid as (Hne & _).
  destruct message as [|c m]; [congruence|].
  unfold get_filter_report. unfold bind at 1. unfold get at 1.
  unfold bind at 1. rewrite filter_message_valid by exact Hvalid.
  reflexivity.
Qed.

Lemma get_filter_report_invalid (self : ChatMessageFilter) (c : N) (m : pystr) :
  ~ valid_message self (c :: m) ->
  get_filter_report (Str (c :: m)) self = (Raise ValueError, self).
Proof.
  intros Hbad. unfold get_filter_report. unfold bind at 1. unfold get at 1.
  unfold bind at 1. rewrite filter_message_invalid; [reflexivity|].
  intros m' [= <-]. exact Hbad.
Qed.

(** What each call does to the two counters. *)
Lemma perform_counters (c : call) (self : ChatMessageFilter) :
  c <> Call_reset_statistics ->
  total_messages_processed (perform c self)
    = (total_messages_processed self + Z.of_nat (filters_one c self))%Z
  /\ total_words_filtered (perform c self)
     = (total_words_filtered self + Z.of_nat (judges c self))%Z.
Proof.
  intros Hreset.
  assert (Hfilter : forall message pl,
    total_messages_processed (snd (filter_message message pl self))
      = (total_messages_processed self
         + Z.of_nat (if returns (filter_message message pl self) then 1 else 0))%Z
    /\ total_words_filtered (snd (filter_message message pl self))
       = (total_words_filtered self
          + Z.of_nat (if returns (filter_message message pl self)
                      then length (detect_inappropriate_words self message) else 0))%Z).
  { intros [|m] pl.
    - rewrite filter_message_invalid by discriminate. simpl. lia.
    - destruct (valid_message_dec self m) as [Hv|Hv].
      + rewrite filter_message_valid by exact Hv. rewrite detect_unfold.
        unfold returns. simpl. lia.
      + rewrite filter_message_invalid by (intros m' [= <-]; exact Hv).
        unfold returns. simpl. lia. }
  destruct c as [file|[|[|c w]]|[|[|c w]]|char|[level|]|message pl|[|[|c m]]|];
    unfold filters_one, judges; simpl filter_call; cbv iota beta;
    try (simpl; lia); try congruence.
  - unfold perform. rewrite load_curse_words_unfold.
    destruct file as [| | |data]; simpl; try lia.
    destruct (document_words data) as [ws|]; simpl; [|lia].
    destruct (bool_decide (ws = ∅)); simpl; lia.
  - unfold perform. rewrite add_curse_word_unfold.
    destruct (bool_decide _); simpl; lia.
  - unfold perform. rewrite remove_curse_word_unfold.
    destruct (bool_decide _); simpl; lia.
  - unfold perform. rewrite set_replacement_char_unfold.
    destruct (bool_decide _); simpl; lia.
  - apply Hfilter.
  - unfold perform. destruct (valid_message_dec self (c :: m)) as [Hv|Hv].
    + rewrite get_filter_report_valid by exact Hv. apply Hfilter.
    + rewrite get_filter_report_invalid by exact Hv.
      rewrite filter_message_invalid by (intros m' [= <-]; exact Hv).
      unfold returns. simpl. lia.
Qed.

Lemma run_counters (calls : list call) (self : ChatMessageFilter) :
  no_reset calls ->
  total_messages_processed (run calls self)
    = (total_messages_processed self + Z.of_nat (successful_filters calls self))%Z
  /\ total_words_filtered (run calls self)
     = (total_words_filtered self + Z.of_nat (judged_offending calls self))%Z.
Proof.
  revert self. induction calls as [|c calls IH]; intros self Hno.
  - simpl. lia.
  - inversion Hno as [|? ? Hc Hcalls]; subst.
    destruct (IH (perform c self) Hcalls) as [IH1 IH2].
    destruct (perform_counters c self Hc) as [H1 H2].
    simpl. rewrite IH1, IH2, H1, H2. lia.
Qed.

Lemma valid_message_same_policy (a b : ChatMessageFilter) (m : pystr) :
  same_policy a b -> valid_message a m -> valid_message b m.
Proof.
  intros (_ & _ & _ & Hmax & Hmin). unfold valid_message. now rewrite Hmax, Hmin.
Qed.

Lemma offending_words_same_policy (a b : ChatMessageFilter) (m : pystr) :
  same_policy a b -> offending_words a m = offending_words b m.
Proof.
  intros (Hl & Hw & _). unfold offending_words. apply filter_ext.
  intros w. now apply should_filter_same_policy.
Qed.

(** A run of [filter_message] calls on valid messages: the block list and
    the configuration stay as they are, so each message is judged as it
    would be at the start. *)
Lemma run_filter_calls (inputs : list (pystr * bool)) (start self : ChatMessageFilter) :
  same_policy start self ->
  Forall (fun i => valid_message start (fst i)) inputs ->
  total_messages_processed (run (filter_calls inputs) self)
    = (total_messages_processed self + Z.of_nat (length inputs))%Z
  /\ total_words_filtered (run (filter_calls inputs) self)
     = (total_words_filtered self
        + Z.of_nat (length (flat_map (fun i => offending_words start (fst i)) inputs)))%Z.
Proof.
  revert self. induction inputs as [|[m pl] inputs IH]; intros self Hsame Hvalid.
  - simpl. lia.
  - inversion Hvalid as [|? ? Hm Hrest]; subst. simpl in Hm.
    pose proof (valid_message_same_policy start self m Hsame Hm) as Hm'.
    change (filter_calls ((m, pl) :: inputs))
      with (Call_filter_message (Str m) pl :: filter_calls inputs).
    change (run (Call_filter_message (Str m) pl :: filter_calls inputs) self)
      with (run (filter_calls inputs) (snd (filter_message (Str m) pl self))).
    rewrite (filter_message_valid self pl m Hm'). cbn [snd].
    destruct (IH (with_statistics
                    (total_messages_processed self + 1)
                    (total_words_filtered self
                     + Z.of_nat (length (offending_words self m))) self))
      as [IH1 IH2]; [destruct Hsame as (? & ? & ? & ? & ?); repeat split; assumption
                    |exact Hrest|].
    rewrite IH1, IH2. simpl.
    rewrite length_app, (offending_words_same_policy start self m Hsame). lia.
Qed.

(** C9. From freshly reset statistics, after [filter_message] has
    returned for each of N messages, [total_messages_processed] is N and
    [total_words_filtered] is the number K of tokens of these messages that
    are judged offending. The same holds when other calls come in between
    (calls that raise, changes of the block list or the configuration,
    reports), as long as the statistics are not reset again: the counters
    are the number of [filter_message] calls that returned and the number
    of tokens judged offending in them. One [get_filter_report] call on a
    valid message returns, adds exactly one to [total_messages_processed]
    and adds to [total_words_filtered] exactly the number of offending
    words it reports. *)
Theorem counters_count_filtered_messages :
  (forall self inputs,
     Forall (fun i => valid_message self (fst i)) inputs ->
     let final := run (filter_calls inputs) (snd (reset_statistics self)) in
     total_messages_processed final = Z.of_nat (length inputs)
     /\ total_words_filtered final
        = Z.of_nat (length (flat_map (fun i => offending_words self (fst i)) inputs)))
  /\ (forall self calls,
        no_reset calls ->
        let start := snd (reset_statistics self) in
        total_messages_processed (run calls start) = Z.of_nat (successful_filters calls start)
        /\ total_words_filtered (run calls start) = Z.of_nat (judged_offending calls start))
  /\ (forall self message,
        valid_message self message ->
        exists report,
          fst (get_filter_report (Str message) self) = Return report
          /\ inappropriate_words report = detect_inappropriate_words self (Str message)
          /\ filtered_words_count report = Z.of_nat (length (inappropriate_words report))
          /\ total_messages_processed (snd (get_filter_report (Str message) self))
             = (total_messages_processed self + 1)%Z
          /\ total_words_filtered (snd (get_filter_report (Str message) self))
             = (total_words_filtered self + Z.of_nat (length (inappropriate_words report)))%Z).
Proof.
  split; [|split].
  - intros self inputs Hvalid final. subst final.
    destruct (run_filter_calls inputs self (snd (reset_statistics self)))
      as [H1 H2]; [repeat split|exact Hvalid|].
    rewrite H1, H2. simpl. lia.
  - intros self calls Hno start.
    destruct (run_counters calls start Hno) as [H1 H2].
    rewrite H1, H2. subst start. simpl. lia.
  - intros self message Hvalid.
    rewrite get_filter_report_valid by exact Hvalid.
    rewrite filter_message_valid by exact Hvalid.
    eexists. split; [reflexivity|].
    cbn [fst snd inappropriate_words filtered_words_count with_statistics
         total_messages_processed total_words_filtered].
    rewrite detect_unfold. repeat split; reflexivity.
Qed.

End Methods.

(** ** Rewriting a message *)

Section Rewrite.

Context {B : Builtins}.

Lemma censor_same_policy (a b : ChatMessageFilter) (pl : bool) (w : pystr) :
  same_policy a b -> censor a pl w = censor b pl w.
Proof.
  intros (Hl & Hw & Hr & _). unfold censor.
  rewrite (should_filter_same_policy a b w Hl Hw). now rewrite Hr.
Qed.

Lemma censor_pieces_same_policy (a b : ChatMessageFilter) (pl : bool) (ps : list piece) :
  same_policy a b -> censor_pieces a pl ps = censor_pieces b pl ps.
Proof.
  intros Hsame. unfold censor_pieces. apply flat_map_ext.
  intros [w|c]; [now apply censor_same_policy|reflexivity].
Qed.

(** Words that are not offending are copied through. *)
Lemma censor_pieces_clean (self : ChatMessageFilter) (pl : bool) (ps : list piece) :
  (forall w, In w (words_of ps) -> _should_filter_word self w = false) ->
  censor_pieces self pl ps = unpieces ps.
Proof.
  induction ps as [|[w|c] ps IH]; intros Hclean; simpl; [reflexivity| |].
  - unfold censor. rewrite (Hclean w) by (simpl; auto).
    rewrite IH; [reflexivity|]. intros w' Hw'. apply Hclean. simpl. auto.
  - rewrite IH; [reflexivity|]. exact Hclean.
Qed.

Lemma offending_none (self : ChatMessageFilter) (ws : list pystr) :
  (forall w, In w ws -> _should_filter_word self w = false) ->
  List.filter (_should_filter_word self) ws = [].
Proof.
  induction ws as [|w ws IH]; intros Hclean; simpl; [reflexivity|].
  rewrite (Hclean w) by (simpl; auto). apply IH.
  intros w' Hw'. apply Hclean. simpl. auto.
Qed.

(** C4. A valid message none of whose tokens matches a word of the block
    list, neither by its normalized form nor by its substituted form, is
    returned unchanged by [filter_message] and is reported clean. *)
Theorem clean_message_unchanged
        (self : ChatMessageFilter) (message : pystr) (preserve_length : bool) :
  valid_message self message ->
  (forall token, In token (findall_words message) ->
                 (_normalize_word token ∉ curse_words self)
                 /\ (variation_form token ∉ curse_words self)) ->
  fst (filter_message (Str message) preserve_length self) = Return message
  /\ is_message_clean self (Str message) = true.
Proof.
  intros Hvalid Hnone.
  assert (Hclean : forall w, In w (findall_words message) ->
                             _should_filter_word self w = false).
  { intros w Hw. destruct (Hnone w Hw) as [Hn Hv].
    rewrite should_filter_unfold by (eapply findall_words_nonempty; exact Hw).
    rewrite (bool_decide_eq_false_2 _ Hn), (bool_decide_eq_false_2 _ Hv).
    now rewrite andb_false_r. }
  split.
  - rewrite filter_message_valid by exact Hvalid. simpl.
    rewrite censor_pieces_clean by exact Hclean.
    now rewrite unpieces_pieces.
  - unfold is_message_clean. rewrite detect_unfold. unfold offending_words.
    now rewrite offending_none by exact Hclean.
Qed.

Lemma unpieces_app (ps qs : list piece) : unpieces (ps ++ qs) = unpieces ps ++ unpieces qs.
Proof. unfold unpieces. apply flat_map_app. Qed.

Lemma unpieces_seps (cs : pystr) : unpieces (List.map Sep cs) = cs.
Proof. induction cs as [|c cs IH]; simpl; [reflexivity|now rewrite IH]. Qed.

(** The filtered text, cut again. *)
Lemma unpieces_recut (self : ChatMessageFilter) (r : N) (ps : list piece) :
  replacement_char self = [r] ->
  unpieces (recut self r ps) = censor_pieces self true ps.
Proof.
  intros Hr. induction ps as [|[w|c] ps IH]; simpl; [reflexivity| |].
  - rewrite unpieces_app. fold (recut self r ps). rewrite IH. f_equal.
    unfold censor. rewrite Hr, str_mul_single.
    destruct (_should_filter_word self w); [|simpl; apply app_nil_r].
    destruct (is_word r); [simpl; apply app_nil_r|apply unpieces_seps].
  - fold (recut self r ps). now rewrite IH.
Qed.

Lemma recut_keeps_start (self : ChatMessageFilter) (r : N) (ps : list piece) :
  starts_with_word ps = false -> starts_with_word (recut self r ps) = false.
Proof. destruct ps as [|[w|c] ps]; simpl; [reflexivity|discriminate|reflexivity]. Qed.

Lemma well_cut_seps (r : N) (n : nat) (ps : list piece) :
  is_word r = false -> well_cut ps -> well_cut (List.map Sep (repeat r n) ++ ps).
Proof. intros Hr Hps. induction n as [|n IH]; simpl; [exact Hps|split; assumption]. Qed.

Lemma forallb_repeat (r : N) (n : nat) : is_word r = true -> forallb is_word (repeat r n) = true.
Proof. intros Hr. induction n as [|n IH]; simpl; [reflexivity|now rewrite Hr]. Qed.

Lemma well_cut_recut (self : ChatMessageFilter) (r : N) (ps : list piece) :
  well_cut ps -> well_cut (recut self r ps).
Proof.
  induction ps as [|[w|c] ps IH]; simpl; [tauto| |].
  - intros (Hne & Hall & Hst & Hps). fold (recut self r ps).
    specialize (IH Hps). pose proof (recut_keeps_start self r ps Hst) as Hst'.
    destruct (_should_filter_word self w); [|simpl; auto].
    destruct (is_word r) eqn:Hr.
    + simpl. repeat split; auto.
      * destruct w; [congruence|discriminate].
      * now apply forallb_repeat.
    + now apply well_cut_seps.
  - intros (Hc & Hps). fold (recut self r ps). split; auto.
Qed.

Lemma pieces_filtered (self : ChatMessageFilter) (r : N) (message : pystr) :
  replacement_char self = [r] ->
  pieces (censor_pieces self true (pieces message)) = recut self r (pieces message).
Proof.
  intros Hr. rewrite <- (unpieces_recut self r) by exact Hr.
  apply pieces_unpieces, well_cut_recut, well_cut_pieces.
Qed.

(** A word of the filtered text is censored to itself. *)
Lemma censor_recut_word (self : ChatMessageFilter) (r : N) (ps : list piece) (w : pystr) :
  replacement_char self = [r] ->
  In w (words_of (recut self r ps)) -> censor self true w = w.
Proof.
  intros Hr. induction ps as [|[w'|c] ps IH]; simpl; [tauto| |].
  - fold (recut self r ps). unfold words_of. rewrite flat_map_app.
    fold (words_of (recut self r ps)). intros Hin. apply in_app_or in Hin as [Hin|Hin]; [|auto].
    destruct (_should_filter_word self w') eqn:Hoff.
    + destruct (is_word r).
      * simpl in Hin. destruct Hin as [<-|[]].
        unfold censor. rewrite Hr, str_mul_single, repeat_length.
        now destruct (_should_filter_word self (repeat r (length w'))).
      * exfalso. clear -Hin. induction (repeat r (length w')); simpl in Hin; auto.
    + simpl in Hin. destruct Hin as [<-|[]]. unfold censor. now rewrite Hoff.
  - fold (recut self r ps). exact IH.
Qed.

Lemma censor_pieces_recut (self : ChatMessageFilter) (r : N) (ps : list piece) :
  replacement_char self = [r] ->
  censor_pieces self true (recut self r ps) = unpieces (recut self r ps).
Proof.
  intros Hr. pose proof (censor_recut_word self r ps) as Hfix.
  induction (recut self r ps) as [|[w|c] qs IH]; simpl; [reflexivity| |].
  - rewrite (Hfix w Hr) by (simpl; auto). rewrite IH; [reflexivity|].
    intros w' Hr' Hw'. apply Hfix; [exact Hr'|simpl; auto].
  - rewrite IH; [reflexivity|]. exact Hfix.
Qed.

(** When the replacement character is not a word character, the words of
    the filtered text are the words that were not offending. *)
Lemma recut_words_clean (self : ChatMessageFilter) (r : N) (ps : list piece) (w : pystr) :
  is_word r = false ->
  In w (words_of (recut self r ps)) -> _should_filter_word self w = false.
Proof.
  intros Hr. induction ps as [|[w'|c] ps IH]; simpl; [tauto| |].
  - fold (recut self r ps). unfold words_of. rewrite flat_map_app.
    fold (words_of (recut self r ps)). intros Hin. apply in_app_or in Hin as [Hin|Hin]; [|auto].
    rewrite Hr in Hin. destruct (_should_filter_word self w') eqn:Hoff.
    + exfalso. clear -Hin. induction (repeat r (length w')); simpl in Hin; auto.
    + simpl in Hin. destruct Hin as [<-|[]]. exact Hoff.
  - fold (recut self r ps). exact IH.
Qed.

Lemma length_unpieces_recut (self : ChatMessageFilter) (r : N) (ps : list piece) :
  length (unpieces (recut self r ps)) = length (unpieces ps).
Proof.
  induction ps as [|[w|c] ps IH]; simpl; [reflexivity| |].
  - fold (recut self r ps). rewrite unpieces_app, !length_app, IH. f_equal.
    destruct (_should_filter_word self w); [|simpl; now rewrite app_nil_r].
    destruct (is_word r).
    + simpl. now rewrite app_nil_r, repeat_length.
    + now rewrite unpieces_seps, repeat_length.
  - fold (recut self r ps). now rewrite IH.
Qed.

(** C6 (as the code has it). Filtering the result of [filter_message]
    again, with lengths preserved and the same configuration, returns the
    same text, whatever the single replacement character is. When the
    replacement character is not a word character (as the default [*]),
    the filtered text has no offending token left. *)
Theorem filtering_twice_same_text (self : ChatMessageFilter) (message text : pystr) :
  length (replacement_char self) = 1%nat ->
  fst (filter_message (Str message) true self) = Return text ->
  fst (filter_message (Str text) true (snd (filter_message (Str message) true self)))
    = Return text
  /\ (forall r, replacement_char self = [r] -> is_word r = false ->
                detect_inappropriate_words
                  (snd (filter_message (Str message) true self)) (Str text) = []).
Proof.
  intros Hlen Honce.
  destruct (replacement_char self) as [|r [|]] eqn:Hr; try discriminate. clear Hlen.
  destruct (valid_message_dec self message) as [Hvalid|Hbad];
    [|rewrite filter_message_invalid in Honce by (intros m' [= <-]; exact Hbad);
      discriminate].
  rewrite filter_message_valid in Honce by exact Hvalid.
  simpl in Honce. injection Honce as <-.
  rewrite (filter_message_valid self true message) by exact Hvalid.
  set (self' := with_statistics _ _ self). cbn [snd].
  assert (Hsame : same_policy self' self) by (repeat split).
  assert (Hcut : pieces (censor_pieces self true (pieces message))
                 = recut self r (pieces message)) by (now apply pieces_filtered).
  assert (Hvalid' : valid_message self' (censor_pieces self true (pieces message))).
  { assert (Hl : length (censor_pieces self true (pieces message)) = length message).
    { rewrite <- (unpieces_recut self r) by exact Hr.
      now rewrite length_unpieces_recut, unpieces_pieces. }
    destruct Hvalid as (Hne & Hmax & Hmin). unfold valid_message. rewrite Hl.
    repeat split; [|exact Hmax|exact Hmin].
    intros Hnil. rewrite Hnil in Hl. destruct message; [congruence|discriminate]. }
  split.
  - rewrite filter_message_valid by exact Hvalid'. simpl. f_equal.
    rewrite (censor_pieces_same_policy self' self) by exact Hsame.
    rewrite Hcut, censor_pieces_recut by exact Hr. now apply unpieces_recut.
  - intros r' [= <-] Hword. rewrite detect_unfold. unfold offending_words, findall_words.
    fold (words_of (pieces (censor_pieces self true (pieces message)))).
    rewrite Hcut. apply offending_none. intros w Hw.
    rewrite (should_filter_same_policy self' self) by reflexivity.
    now apply (recut_words_clean self r (pieces message)).
Qed.

End Rewrite.

(** ** The words of the block list *)

Section BlockList.

Context {B : Builtins}.

Lemma lstrip_idem (s : pystr) : lstrip (lstrip s) = lstrip s.
Proof.
  induction s as [|c s IH]; [reflexivity|].
  simpl. destruct (is_space c) eqn:Hc; [exact IH|]. simpl. now rewrite Hc.
Qed.

Lemma lstrip_snoc (s : pystr) (c : N) :
  is_space c = false -> lstrip (s ++ [c]) = lstrip s ++ [c].
Proof.
  intros Hc. induction s as [|d s IH]; simpl.
  - now rewrite Hc.
  - destruct (is_space d); [exact IH|reflexivity].
Qed.

Lemma rstrip_cons (c : N) (s : pystr) :
  is_space c = false -> rstrip (c :: s) = c :: rstrip s.
Proof.
  intros Hc. unfold rstrip. simpl. rewrite lstrip_snoc by exact Hc.
  now rewrite rev_app_distr.
Qed.

Lemma strip_trimmed (s : pystr) : trimmed (strip s).
Proof.
  unfold trimmed, strip. split.
  - destruct (lstrip s) as [|c t] eqn:Ht; [reflexivity|].
    assert (Hc : is_space c = false).
    { pose proof (lstrip_idem s) as Hi. rewrite Ht in Hi. simpl in Hi.
      destruct (is_space c); [|reflexivity].
      exfalso. assert (Hlen : length (lstrip t) <= length t).
      { clear. induction t as [|d t IH]; simpl; [lia|].
        destruct (is_space d); simpl; lia. }
      rewrite Hi in Hlen. simpl in Hlen. lia. }
    rewrite rstrip_cons by exact Hc. simpl. now rewrite Hc.
  - unfold rstrip. rewrite rev_involutive. now rewrite lstrip_idem.
Qed.

Lemma forallb_lstrip (P : N -> bool) (s : pystr) :
  forallb P s = true -> forallb P (lstrip s) = true.
Proof.
  induction s as [|c s IH]; [reflexivity|].
  simpl. intros H. apply andb_true_iff in H as [Hc Hs].
  destruct (is_space c); [auto|]. simpl. now rewrite Hc, Hs.
Qed.

Lemma forallb_reversed (P : N -> bool) (s : pystr) :
  forallb P s = true -> forallb P (rev s) = true.
Proof.
  rewrite !forallb_forall. intros H x Hx. apply H. now apply in_rev.
Qed.

Lemma forallb_strip (P : N -> bool) (s : pystr) :
  forallb P s = true -> forallb P (strip s) = true.
Proof.
  intros H. unfold strip, rstrip.
  apply forallb_reversed, forallb_lstrip, forallb_reversed, forallb_lstrip, H.
Qed.

Lemma lower_go_no_upper (before s : pystr) :
  lowercase_table -> no_ascii_upper (lower_go before s).
Proof.
  intros Htable. unfold no_ascii_upper. revert before.
  induction s as [|c s IH]; intros before; [reflexivity|].
  simpl. rewrite forallb_app, IH, andb_true_r.
  unfold lower_cp. destruct (is_ascii c) eqn:Hascii.
  - simpl. rewrite andb_true_r. destruct (ascii_upper c) eqn:Hup; [|now rewrite Hup].
    unfold ascii_upper, in_range in *.
    apply andb_true_iff in Hup as [H1 H2].
    apply N.leb_le in H1, H2. apply negb_true_iff, andb_false_iff. right.
    apply N.leb_gt. lia.
  - destruct (c =? 304)%N; [reflexivity|]. destruct (c =? 8490)%N; [reflexivity|].
    apply forallb_forall. intros x Hx. apply negb_true_iff.
    now apply (Htable before c s).
Qed.

Lemma stored_word_shape (w : pystr) :
  lowered_and_stripped w -> trimmed w /\ (lowercase_table -> no_ascii_upper w).
Proof.
  intros [s ->]. split; [apply strip_trimmed|].
  intros Htable. apply forallb_strip. now apply lower_go_no_upper.
Qed.

Lemma word_set_shape (items : list json) (w : pystr) :
  w ∈ word_set items -> lowered_and_stripped w.
Proof.
  unfold word_set. rewrite elem_of_list_to_set, list_elem_of_In, in_map_iff.
  intros (item & <- & _). now exists (str item).
Qed.

Lemma document_words_shape (data : json) (ws : gset pystr) (w : pystr) :
  document_words data = Some ws -> w ∈ ws -> lowered_and_stripped w.
Proof.
  destruct data as [| | | | |items|bindings]; try discriminate.
  - intros [= <-]. apply word_set_shape.
  - unfold document_words.
    destruct (first_listed common_keys bindings); intros [= <-]; apply word_set_shape.
Qed.

(** A call adds to the block list only lowercased and trimmed text. *)
Lemma perform_words (c : call) (self : ChatMessageFilter) (w : pystr) :
  w ∈ curse_words (perform c self) ->
  w ∈ curse_words self \/ lowered_and_stripped w.
Proof.
  destruct c as [file|[|[|c w']]|[|[|c w']]|char|[level|]|message pl|[|[|c m]]|];
    try (simpl; auto; fail).
  - unfold perform. rewrite load_curse_words_unfold.
    destruct file as [| | |data]; simpl; auto.
    destruct (document_words data) as [ws|] eqn:Hd; simpl; auto.
    destruct (bool_decide (ws = ∅)); simpl; [set_solver|].
    intros Hw. right. eapply document_words_shape; eauto.
  - unfold perform. rewrite add_curse_word_unfold.
    destruct (bool_decide _); simpl; auto.
    rewrite elem_of_union, elem_of_singleton. intros [Hw|Heq]; [auto|].
    right. subst w. now exists (c :: w').
  - unfold perform. rewrite remove_curse_word_unfold.
    destruct (bool_decide _); simpl; auto. set_solver.
  - unfold perform. rewrite set_replacement_char_unfold.
    destruct (bool_decide _); simpl; auto.
  - unfold perform.
    destruct (filter_message_same_policy self pl message) as (_ & -> & _). auto.
  - unfold perform. destruct (valid_message_dec self (c :: m)) as [Hv|Hv].
    + rewrite get_filter_report_valid by exact Hv. cbn [snd].
      destruct (filter_message_same_policy self true (Str (c :: m))) as (_ & -> & _). auto.
    + rewrite get_filter_report_invalid by exact Hv. auto.
Qed.

Lemma run_words (calls : list call) (self : ChatMessageFilter) (w : pystr) :
  w ∈ curse_words (run calls self) ->
  w ∈ curse_words self \/ lowered_and_stripped w.
Proof.
  revert self. induction calls as [|c calls IH]; intros self; simpl; [auto|].
  intros Hw. apply IH in Hw as [Hw|Hw]; [|auto]. now apply perform_words in Hw.
Qed.

Lemma init_words (file : word_file) (level : FilterLevel) (w : pystr) :
  w ∈ curse_words (__init__ file level) -> lowered_and_stripped w.
Proof.
  rewrite init_unfold. destruct file as [| | |data]; simpl; try set_solver.
  destruct (document_words data) as [ws|] eqn:Hd; simpl; [|set_solver].
  intros Hw. eapply document_words_shape; eauto.
Qed.

Lemma run_words_shape (self : ChatMessageFilter) (w : pystr) :
  reachable self -> w ∈ curse_words self ->
  trimmed w /\ (lowercase_table -> no_ascii_upper w).
Proof.
  intros (file & level & calls & ->) Hw. apply stored_word_shape.
  apply run_words in Hw as [Hw|Hw]; [|exact Hw]. now apply init_words in Hw.
Qed.

(** C7 (as the code has it). Every word of the block list of an engine,
    after construction and after any calls (loading from a source,
    [add_curse_word], [remove_curse_word] and the others), is some text
    lowercased and then trimmed: it has no surrounding whitespace and no
    ASCII capital. [add_curse_word] raises [ValueError] on an absent or
    empty word, and otherwise lowercases and trims its argument, without
    removing any other character, returns whether that word was new, and
    leaves it in the block list; [remove_curse_word] takes the lowercased,
    trimmed word out. *)
Theorem stored_words_lowercased_and_trimmed :
  (forall self w,
     reachable self -> w ∈ curse_words self ->
     lowered_and_stripped w /\ trimmed w /\ (lowercase_table -> no_ascii_upper w))
  /\ (forall self,
        add_curse_word NotStr self = (Raise ValueError, self)
        /\ add_curse_word (Str []) self = (Raise ValueError, self))
  /\ (forall self c word,
        let stored := strip (lower (c :: word)) in
        fst (add_curse_word (Str (c :: word)) self)
          = Return (negb (bool_decide (stored ∈ curse_words self)))
        /\ curse_words (snd (add_curse_word (Str (c :: word)) self))
           = curse_words self ∪ {[stored]})
  /\ (forall self c word,
        let stored := strip (lower (c :: word)) in
        fst (remove_curse_word (Str (c :: word)) self)
          = Return (bool_decide (stored ∈ curse_words self))
        /\ curse_words (snd (remove_curse_word (Str (c :: word)) self))
           = curse_words self ∖ {[stored]}).
Proof.
  split; [|split; [|split]].
  - intros self w (file & level & calls & ->) Hw.
    assert (Hshape : lowered_and_stripped w).
    { apply run_words in Hw as [Hw|Hw]; [|exact Hw]. now apply init_words in Hw. }
    split; [exact Hshape|]. now apply stored_word_shape.
  - intros self. split; reflexivity.
  - intros self c word stored. subst stored. rewrite add_curse_word_unfold.
    destruct (bool_decide_reflect (strip (lower (c :: word)) ∈ curse_words self)) as [Hin|Hout];
      simpl; split; try reflexivity.
    set_solver.
  - intros self c word stored. subst stored. rewrite remove_curse_word_unfold.
    destruct (bool_decide_reflect (strip (lower (c :: word)) ∈ curse_words self)) as [Hin|Hout];
      simpl; split; try reflexivity.
    set_solver.
Qed.

End BlockList.

(** ** The normalizer *)

Section Normalizer.

Context {B : Builtins}.

Lemma lower_go_ascii (before s : pystr) :
  ascii_only s ->
  lower_go before s = List.map (fun c => if ascii_upper c then (c + 32)%N else c) s.
Proof.
  unfold ascii_only. revert before. induction s as [|c s IH]; intros before; [reflexivity|].
  simpl. intros H. apply andb_true_iff in H as [Hc Hs].
  unfold lower_cp. rewrite Hc. simpl. now rewrite IH.
Qed.

Lemma ascii_letter_is_ascii (c : N) : ascii_letter c = true -> is_ascii c = true.
Proof.
  unfold ascii_letter, ascii_upper, ascii_lower, in_range, is_ascii.
  intros H. apply N.ltb_lt.
  apply orb_true_iff in H as [H|H]; apply andb_true_iff in H as [_ H];
    apply N.leb_le in H; lia.
Qed.

Lemma ascii_letter_lowered (c : N) :
  ascii_letter (if ascii_upper c then (c + 32)%N else c) = ascii_letter c.
Proof.
  unfold ascii_letter. destruct (ascii_upper c) eqn:Hup; [|now rewrite Hup].
  unfold ascii_upper, ascii_lower, in_range in *.
  apply andb_true_iff in Hup as [H1 H2]. apply N.leb_le in H1, H2.
  simpl. apply orb_true_iff. right. apply andb_true_iff.
  split; apply N.leb_le; lia.
Qed.

(** On text without characters outside ASCII it makes no difference
    whether the letters are picked before or after lowercasing. *)
Lemma normalize_word_ascii (word : pystr) :
  ascii_only word -> _normalize_word word = normalize_spec word.
Proof.
  intros Hascii. unfold _normalize_word, normalize_spec, lower.
  rewrite lower_go_ascii by exact Hascii.
  rewrite lower_go_ascii.
  - clear Hascii. induction word as [|c w IH]; [reflexivity|].
    simpl. rewrite ascii_letter_lowered.
    destruct (ascii_letter c); simpl; now rewrite IH.
  - unfold ascii_only. apply forallb_forall. intros c Hc.
    apply filter_In in Hc as [_ Hc]. now apply ascii_letter_is_ascii.
Qed.

(** C8 (as the code has it). The normalizer lowercases the token and then
    keeps the ASCII letters; on a token without characters outside ASCII
    this is the reference function that strips the other characters first
    and lowercases afterwards. It is a function of the token alone. With a
    block list that does not hold the empty word, a token whose normalized
    form is empty is judged offending exactly when the strictness is not
    LENIENT and its substituted form is in the block list. *)
Theorem normalizer_and_empty_normal_form :
  (forall word, ascii_only word -> _normalize_word word = normalize_spec word)
  /\ (forall self word,
        _normalize_word word = [] ->
        [] ∉ curse_words self ->
        (_should_filter_word self word = true <->
         filter_level self <> LENIENT /\ variation_form word ∈ curse_words self)).
Proof.
  split; [exact normalize_word_ascii|].
  intros self word Hnorm Hempty. destruct word as [|c w].
  - simpl. split; [discriminate|]. intros [_ Hin].
    exfalso. apply Hempty. exact Hin.
  - rewrite should_filter_unfold by discriminate. rewrite Hnorm.
    rewrite (bool_decide_eq_false_2 _ Hempty). simpl.
    rewrite andb_true_iff, !bool_decide_eq_true. reflexivity.
Qed.

End Normalizer.

(** ** Further properties of rewriting *)

Section Filtered.

Context {B : Builtins}.

Lemma filter_message_returns (self : ChatMessageFilter) (pl : bool) (message text : pystr) :
  fst (filter_message (Str message) pl self) = Return text ->
  valid_message self message /\ text = censor_pieces self pl (pieces message).
Proof.
  intros Hret. destruct (valid_message_dec self message) as [Hvalid|Hbad].
  - split; [exact Hvalid|]. rewrite filter_message_valid in Hret by exact Hvalid.
    simpl in Hret. congruence.
  - rewrite filter_message_invalid in Hret by (intros m' [= <-]; exact Hbad).
    discriminate.
Qed.

(** X1. With lengths preserved and a one-character replacement, the text
    returned by [filter_message] is as long as the message. *)
Theorem filter_message_preserves_length
        (self : ChatMessageFilter) (message text : pystr) :
  length (replacement_char self) = 1%nat ->
  fst (filter_message (Str message) true self) = Return text ->
  length text = length message.
Proof.
  intros Hlen Hret. apply filter_message_returns in Hret as [_ ->].
  destruct (replacement_char self) as [|r [|]] eqn:Hr; try discriminate.
  rewrite <- (unpieces_recut self r) by exact Hr.
  now rewrite length_unpieces_recut, unpieces_pieces.
Qed.

Lemma censor_pieces_charwise (self : ChatMessageFilter) (r : N) (ps : list piece) :
  replacement_char self = [r] -> well_cut ps ->
  Forall2 (fun a b => b = a \/ (is_word a = true /\ b = r))
          (unpieces ps) (censor_pieces self true ps).
Proof.
  intros Hr. induction ps as [|[w|c] ps IH]; simpl.
  - constructor.
  - intros (_ & Hall & _ & Hps). apply Forall2_app; [|auto].
    unfold censor. rewrite Hr, str_mul_single.
    destruct (_should_filter_word self w).
    + clear -Hall. induction w as [|c w IH]; simpl in *; [constructor|].
      apply andb_true_iff in Hall as [Hc Hw]. constructor; auto.
    + clear. induction w; constructor; auto.
  - intros (_ & Hps). constructor; auto.
Qed.

(** X2. With lengths preserved, [filter_message] changes a message only
    inside words and only to the replacement character: position by
    position, the returned text has the character of the message or, in
    place of a word character, the replacement character. *)
Theorem filter_message_charwise
        (self : ChatMessageFilter) (r : N) (message text : pystr) :
  replacement_char self = [r] ->
  fst (filter_message (Str message) true self) = Return text ->
  Forall2 (fun a b => b = a \/ (is_word a = true /\ b = r)) message text.
Proof.
  intros Hr Hret. apply filter_message_returns in Hret as [_ ->].
  rewrite <- (unpieces_pieces message) at 1.
  apply censor_pieces_charwise; [exact Hr|apply well_cut_pieces].
Qed.



Lemma pieces_nonempty (s : pystr) : s <> [] -> pieces s <> [].
Proof.
  destruct s as [|c s]; [congruence|]. intros _. simpl.
  destruct (is_word c); [|discriminate].
  destruct (pieces s) as [|[w|c'] ps]; discriminate.
Qed.

Lemma pieces_cons (c : N) (s : pystr) :
  pieces (c :: s) =
    if is_word c then
      match pieces s with
      | Word w :: ps => Word (c :: w) :: ps
      | ps => Word [c] :: ps
      end
    else Sep c :: pieces s.
Proof. reflexivity. Qed.

(** Cutting a text after a word boundary cuts its two parts separately. *)
Lemma pieces_app_boundary (a s : pystr) :
  ends_at_boundary a -> pieces (a ++ s) = pieces a ++ pieces s.
Proof.
  unfold ends_at_boundary. induction a as [|c a IH]; [reflexivity|].
  intros Hend. destruct a as [|c' a].
  - simpl in Hend. simpl. now rewrite Hend.
  - assert (Hend' : match rev (c' :: a) with [] => True | d :: _ => is_word d = false end).
    { simpl in Hend. simpl. destruct (rev a ++ [c']) as [|d t] eqn:Ht.
      - destruct (rev a); discriminate.
      - exact Hend. }
    specialize (IH Hend').
    rewrite <- app_comm_cons.
    rewrite (pieces_cons c ((c' :: a) ++ s)), IH, (pieces_cons c (c' :: a)).
    pose proof (pieces_nonempty (c' :: a)) as Hne.
    destruct (pieces (c' :: a)) as [|[w|d] ps]; [now exfalso; apply Hne| |];
      destruct (is_word c); reflexivity.
Qed.

(** X4. A run of word characters that stands between word boundaries in
    a message is one of its tokens; if the match decision judges it
    offending, it is detected and the message is not clean. *)
Theorem delimited_word_is_found
        (self : ChatMessageFilter) (before word after : pystr) :
  word <> [] -> forallb is_word word = true ->
  ends_at_boundary before -> starts_at_boundary after ->
  In word (findall_words (before ++ word ++ after))
  /\ (_should_filter_word self word = true ->
      In word (detect_inappropriate_words self (Str (before ++ word ++ after)))
      /\ is_message_clean self (Str (before ++ word ++ after)) = false).
Proof.
  intros Hne Hall Hbefore Hafter.
  assert (Hin : In word (findall_words (before ++ word ++ after))).
  { unfold findall_words. rewrite pieces_app_boundary by exact Hbefore.
    rewrite flat_map_app. apply in_or_app. right.
    rewrite pieces_word_app; [simpl; auto|exact Hne|exact Hall|].
    destruct after as [|c after]; [reflexivity|].
    simpl in Hafter. simpl. now rewrite Hafter. }
  split; [exact Hin|]. intros Hoff.
  assert (Hdet : In word (detect_inappropriate_words self (Str (before ++ word ++ after)))).
  { rewrite detect_unfold. unfold offending_words. apply filter_In. now split. }
  split; [exact Hdet|]. unfold is_message_clean.
  destruct (detect_inappropriate_words self (Str (before ++ word ++ after)));
    [destruct Hdet|reflexivity].
Qed.

End Filtered.

(** ** Further properties of the match decision *)

Section Decision.

Context {B : Builtins}.

Lemma lower_ascii (s : pystr) : ascii_only s -> lower s = List.map ascii_fold s.
Proof. intros Hs. unfold lower. now rewrite lower_go_ascii. Qed.

Lemma ascii_fold_is_ascii (c : N) : is_ascii c = true -> is_ascii (ascii_fold c) = true.
Proof.
  unfold ascii_fold, ascii_upper, in_range, is_ascii. intros Hc.
  destruct ((65 <=? c) && (c <=? 90))%N eqn:Hup; [|exact Hc].
  apply andb_true_iff in Hup as [_ H2].
  apply N.leb_le in H2. apply N.ltb_lt. lia.
Qed.

Lemma substitute_cases (c : N) :
  substitute c = c
  \/ In (c, substitute c) substitutions.
Proof.
  unfold substitute, substitutions. simpl.
  repeat (match goal with
          | |- context [(c =? ?d)%N] => destruct (N.eqb_spec c d); [subst c; tauto|]
          end).
  now left.
Qed.

Lemma substitute_is_ascii (c : N) : is_ascii c = true -> is_ascii (substitute c) = true.
Proof.
  intros Hc. destruct (substitute_cases c) as [->|Hin]; [exact Hc|].
  unfold substitutions in Hin. simpl in Hin.
  repeat (destruct Hin as [Heq|Hin]; [injection Heq as _ <-; reflexivity|]).
  destruct Hin.
Qed.

Lemma ascii_only_map (f : N -> N) (s : pystr) :
  (forall c, is_ascii c = true -> is_ascii (f c) = true) ->
  ascii_only s -> ascii_only (List.map f s).
Proof.
  unfold ascii_only. intros Hf. induction s as [|c s IH]; [reflexivity|].
  simpl. intros H. apply andb_true_iff in H as [Hc Hs].
  now rewrite (Hf c Hc), IH.
Qed.

Lemma normalize_ascii (w : pystr) :
  ascii_only w -> _normalize_word w = List.filter ascii_letter (List.map ascii_fold w).
Proof. intros Hw. unfold _normalize_word. now rewrite lower_ascii. Qed.

Lemma variation_ascii (w : pystr) :
  ascii_only w ->
  variation_form w
    = List.filter ascii_letter
        (List.map ascii_fold (List.map substitute (List.map ascii_fold w))).
Proof.
  intros Hw. rewrite variation_form_pointwise, (lower_ascii w Hw).
  apply normalize_ascii. apply ascii_only_map; [exact substitute_is_ascii|].
  apply ascii_only_map; [exact ascii_fold_is_ascii|exact Hw].
Qed.

(** X5. Matching ignores the case of ASCII letters: two ASCII tokens that
    differ only in case get the same decision, whatever the block list and
    the strictness. *)
Theorem should_filter_ignores_case (self : ChatMessageFilter) (a b : pystr) :
  same_ignoring_case a b ->
  _should_filter_word self a = _should_filter_word self b.
Proof.
  intros (Ha & Hb & Hfold).
  destruct a as [|x a], b as [|y b]; try discriminate; [reflexivity|].
  rewrite !should_filter_unfold by discriminate.
  rewrite (normalize_ascii _ Ha), (normalize_ascii _ Hb).
  rewrite (variation_ascii _ Ha), (variation_ascii _ Hb).
  now rewrite Hfold.
Qed.

Lemma should_filter_strict_moderate (self : ChatMessageFilter) (w : pystr) :
  _should_filter_word (with_filter_level STRICT self) w
  = _should_filter_word (with_filter_level MODERATE self) w.
Proof.
  destruct w as [|c w]; [reflexivity|].
  now rewrite !should_filter_unfold by discriminate.
Qed.

Lemma censor_pieces_ext (a b : ChatMessageFilter) (pl : bool) (ps : list piece) :
  (forall w, _should_filter_word a w = _should_filter_word b w) ->
  replacement_char a = replacement_char b ->
  censor_pieces a pl ps = censor_pieces b pl ps.
Proof.
  intros Hw Hr. unfold censor_pieces. apply flat_map_ext.
  intros [w|c]; [|reflexivity]. unfold censor. now rewrite Hw, Hr.
Qed.

(** X6. STRICT and MODERATE are the same strictness: they detect the same
    words in every message and [filter_message] returns the same result
    under both. *)
Theorem strict_is_moderate (self : ChatMessageFilter) (message : pyarg) (pl : bool) :
  detect_inappropriate_words (with_filter_level STRICT self) message
  = detect_inappropriate_words (with_filter_level MODERATE self) message
  /\ fst (filter_message message pl (with_filter_level STRICT self))
     = fst (filter_message message pl (with_filter_level MODERATE self)).
Proof.
  split.
  - destruct message as [|m]; [reflexivity|].
    rewrite !detect_unfold. unfold offending_words. apply filter_ext.
    apply should_filter_strict_moderate.
  - destruct message as [|m]; [reflexivity|].
    destruct (valid_message_dec (with_filter_level STRICT self) m) as [Hv|Hv].
    + rewrite (filter_message_valid (with_filter_level STRICT self)) by exact Hv.
      rewrite (filter_message_valid (with_filter_level MODERATE self)) by exact Hv.
      cbn [fst]. apply (f_equal Return), censor_pieces_ext; [|reflexivity].
      apply should_filter_strict_moderate.
    + rewrite (filter_message_invalid (with_filter_level STRICT self))
        by (intros m' [= <-]; exact Hv).
      rewrite (filter_message_invalid (with_filter_level MODERATE self))
        by (intros m' [= <-]; exact Hv).
      reflexivity.
Qed.

Lemma normalize_word_letters (w : pystr) : forallb ascii_letter (_normalize_word w) = true.
Proof.
  unfold _normalize_word. apply forallb_forall. intros c Hc.
  now apply filter_In in Hc as [_ Hc].
Qed.

Lemma variation_form_letters (w : pystr) : forallb ascii_letter (variation_form w) = true.
Proof. rewrite variation_form_pointwise. apply normalize_word_letters. Qed.

(** X7. A word of the block list that contains a character other than an
    ASCII letter never makes a token offending: taking it out of the block
    list changes no decision. *)
Theorem entry_with_non_letter_is_dead
        (self : ChatMessageFilter) (entry token : pystr) :
  forallb ascii_letter entry = false ->
  _should_filter_word (with_curse_words (curse_words self ∖ {[entry]}) self) token
  = _should_filter_word self token.
Proof.
  intros Hentry. destruct token as [|c t]; [reflexivity|].
  rewrite !should_filter_unfold by discriminate. simpl.
  assert (Hsame : forall form, forallb ascii_letter form = true ->
            bool_decide (form ∈ curse_words self ∖ {[entry]})
            = bool_decide (form ∈ curse_words self)).
  { intros form Hform. apply bool_decide_ext.
    rewrite elem_of_difference, elem_of_singleton.
    split; [tauto|]. intros Hin. split; [exact Hin|].
    intros ->. congruence. }
  now rewrite (Hsame _ (normalize_word_letters _)), (Hsame _ (variation_form_letters _)).
Qed.

Lemma should_filter_mono (a b : ChatMessageFilter) (w : pystr) :
  filter_level a = filter_level b -> curse_words a ⊆ curse_words b ->
  _should_filter_word a w = true -> _should_filter_word b w = true.
Proof.
  intros Hl Hsub. destruct w as [|c w]; [discriminate|].
  rewrite !should_filter_unfold by discriminate. rewrite Hl.
  rewrite !orb_true_iff, !andb_true_iff, !bool_decide_eq_true.
  intros [Hn|[Hlevel Hv]]; [left|right; split; [exact Hlevel|]]; now apply Hsub.
Qed.

Lemma detect_mono (a b : ChatMessageFilter) (message : pyarg) :
  filter_level a = filter_level b -> curse_words a ⊆ curse_words b ->
  detect_inappropriate_words a message ⊆ detect_inappropriate_words b message.
Proof.
  intros Hl Hsub. destruct message as [|m]; [done|].
  rewrite !detect_unfold. unfold offending_words.
  intros w Hw. apply list_elem_of_In in Hw. apply list_elem_of_In.
  apply filter_In in Hw as [Hin Hoff]. apply filter_In. split; [exact Hin|].
  now apply (should_filter_mono a b).
Qed.

(** X8. Adding a word never un-flags a token and removing one never flags
    a new one: what was detected in a message is still detected after
    [add_curse_word], and what is detected after [remove_curse_word] was
    detected before. *)
Theorem detections_grow_with_block_list
        (self : ChatMessageFilter) (word message : pyarg) :
  detect_inappropriate_words self message
  ⊆ detect_inappropriate_words (snd (add_curse_word word self)) message
  /\ detect_inappropriate_words (snd (remove_curse_word word self)) message
     ⊆ detect_inappropriate_words self message.
Proof.
  split; apply detect_mono; destruct word as [|[|c w]]; try reflexivity.
  - rewrite add_curse_word_unfold. now destruct (bool_decide _).
  - rewrite add_curse_word_unfold. destruct (bool_decide _); simpl; set_solver.
  - rewrite remove_curse_word_unfold. now destruct (bool_decide _).
  - rewrite remove_curse_word_unfold. destruct (bool_decide _); simpl; set_solver.
Qed.

Lemma ascii_only_app (a b : pystr) : ascii_only (a ++ b) <-> ascii_only a /\ ascii_only b.
Proof. unfold ascii_only. rewrite forallb_app. apply andb_true_iff. Qed.

(** X9. In an ASCII token, a character that is neither a letter nor a
    source of the substitution table (an underscore, or one of the digits
    0, 2, 6, 8, 9) is ignored by the match decision. *)
Theorem should_filter_ignores_filler
        (self : ChatMessageFilter) (a b : pystr) (c : N) :
  ascii_only a -> ascii_only b -> a ++ b <> [] ->
  is_ascii c = true -> ascii_letter c = false -> substitute c = c ->
  _should_filter_word self (a ++ c :: b) = _should_filter_word self (a ++ b).
Proof.
  intros Ha Hb Hne Hc Hletter Hsub.
  assert (Hfold : ascii_fold c = c).
  { unfold ascii_fold. unfold ascii_letter in Hletter.
    apply orb_false_iff in Hletter as [-> _]. reflexivity. }
  assert (Hacb : ascii_only (a ++ c :: b)).
  { apply ascii_only_app. split; [exact Ha|]. unfold ascii_only in *. simpl.
    now rewrite Hc, Hb. }
  assert (Hab : ascii_only (a ++ b)) by (now apply ascii_only_app).
  rewrite !should_filter_unfold by (try exact Hne; destruct a; discriminate).
  rewrite (normalize_ascii _ Hacb), (normalize_ascii _ Hab).
  rewrite (variation_ascii _ Hacb), (variation_ascii _ Hab).
  rewrite !List.map_app, !List.filter_app. simpl.
  now rewrite Hfold, Hsub, Hfold, Hletter.
Qed.

Lemma substitute_never_y (d : N) :
  ascii_upper d = false -> ascii_fold (substitute d) <> 121%N.
Proof.
  intros Hd. destruct (substitute_cases d) as [Heq|Hin].
  - rewrite Heq. unfold ascii_fold. rewrite Hd. intros ->.
    unfold substitute, substitutions in Heq. simpl in Heq. discriminate.
  - unfold substitutions in Hin. simpl in Hin.
    repeat (destruct Hin as [Heq|Hin]; [injection Heq as _ <-; discriminate|]).
    destruct Hin.
Qed.

Lemma ascii_fold_not_upper (c : N) : ascii_upper (ascii_fold c) = false.
Proof.
  unfold ascii_fold. destruct (ascii_upper c) eqn:Hup; [|exact Hup].
  unfold ascii_upper, in_range in *. apply andb_true_iff in Hup as [H1 H2].
  apply N.leb_le in H1, H2. apply andb_false_iff. right. apply N.leb_gt. lia.
Qed.

(** X10. The substitution table turns every [y] into [u], so the
    substituted form of an ASCII token never contains [y]: the variant
    detector never matches a word of the block list that has a [y] in it
    (such a word is matched by its normalized form only). *)
Theorem variations_never_match_y (self : ChatMessageFilter) (token : pystr) :
  ascii_only token ->
  ~ In 121%N (variation_form token)
  /\ ((forall entry, entry ∈ curse_words self -> In 121%N entry) ->
      _detect_variations self token = false).
Proof.
  intros Htoken.
  assert (Hno : ~ In 121%N (variation_form token)).
  { rewrite (variation_ascii _ Htoken). intros Hin.
    apply filter_In in Hin as [Hin _].
    apply in_map_iff in Hin as (x & Hx & Hin).
    apply in_map_iff in Hin as (d & <- & Hin).
    apply in_map_iff in Hin as (c & <- & _).
    exact (substitute_never_y _ (ascii_fold_not_upper c) Hx). }
  split; [exact Hno|]. intros Hall.
  unfold _detect_variations. apply bool_decide_eq_false_2.
  intros Hin. exact (Hno (Hall _ Hin)).
Qed.

End Decision.

(** ** Further properties of the block list *)

Section Words.

Context {B : Builtins}.

Lemma ascii_letter_not_space (c : N) : ascii_letter c = true -> is_space c = false.
Proof.
  intros Hc. unfold is_space. rewrite (ascii_letter_is_ascii c Hc).
  unfold ascii_letter, ascii_upper, ascii_lower, ascii_space, in_range in *.
  apply orb_true_iff in Hc as [Hc|Hc]; apply andb_true_iff in Hc as [H1 H2];
    apply N.leb_le in H1, H2; apply orb_false_iff; split; apply andb_false_iff;
    right; apply N.leb_gt; lia.
Qed.

Lemma lstrip_letters (s : pystr) : forallb ascii_letter s = true -> lstrip s = s.
Proof.
  destruct s as [|c s]; [reflexivity|]. simpl. intros H.
  apply andb_true_iff in H as [Hc _]. now rewrite (ascii_letter_not_space c Hc).
Qed.

Lemma strip_letters (s : pystr) : forallb ascii_letter s = true -> strip s = s.
Proof.
  intros H. unfold strip, rstrip. rewrite (lstrip_letters s H).
  rewrite lstrip_letters by (now apply forallb_reversed).
  apply rev_involutive.
Qed.

Lemma letters_ascii_only (s : pystr) : forallb ascii_letter s = true -> ascii_only s.
Proof.
  unfold ascii_only. rewrite !forallb_forall. intros H c Hc.
  apply ascii_letter_is_ascii. now apply H.
Qed.

Lemma letters_fold (s : pystr) :
  forallb ascii_letter s = true -> forallb ascii_letter (List.map ascii_fold s) = true.
Proof.
  induction s as [|c s IH]; [reflexivity|]. simpl. intros H.
  apply andb_true_iff in H as [Hc Hs]. unfold ascii_fold at 1.
  now rewrite ascii_letter_lowered, Hc, IH.
Qed.

Lemma filter_all (P : N -> bool) (s : pystr) : forallb P s = true -> List.filter P s = s.
Proof.
  induction s as [|c s IH]; [reflexivity|]. simpl. intros H.
  apply andb_true_iff in H as [Hc Hs]. now rewrite Hc, IH.
Qed.

(** A word of ASCII letters is stored as its lowercase. *)
Lemma stored_letters (word : pystr) :
  forallb ascii_letter word = true -> strip (lower word) = List.map ascii_fold word.
Proof.
  intros H. rewrite lower_ascii by (now apply letters_ascii_only).
  apply strip_letters. now apply letters_fold.
Qed.

(** ... and normalized to its lowercase. *)
Lemma normalize_letters (word : pystr) :
  forallb ascii_letter word = true -> _normalize_word word = List.map ascii_fold word.
Proof.
  intros H. rewrite normalize_ascii by (now apply letters_ascii_only).
  apply filter_all. now apply letters_fold.
Qed.

Lemma listed_word_flagged (self : ChatMessageFilter) (word token : pystr) :
  word <> [] -> forallb ascii_letter word = true -> same_ignoring_case token word ->
  strip (lower word) ∈ curse_words self ->
  _should_filter_word self token = true.
Proof.
  intros Hne Hletters Hcase Hin.
  rewrite (should_filter_ignores_case self token word Hcase).
  rewrite should_filter_unfold by exact Hne.
  rewrite (normalize_letters word Hletters), <- (stored_letters word Hletters).
  now rewrite (bool_decide_eq_true_2 _ Hin).
Qed.

(** X11. A non-empty word of ASCII letters that was added with
    [add_curse_word], or that is an item of the list the engine was built
    from, is matched: the word itself, in any casing, is judged offending
    at every strictness. *)
Theorem listed_word_is_matched (word token : pystr) :
  word <> [] -> forallb ascii_letter word = true -> same_ignoring_case token word ->
  (forall self,
     _should_filter_word (snd (add_curse_word (Str word) self)) token = true)
  /\ (forall items level,
        In (JStr word) items ->
        _should_filter_word (__init__ (Parsed (JList items)) level) token = true).
Proof.
  intros Hne Hletters Hcase. split.
  - intros self. apply (listed_word_flagged _ word); auto.
    destruct word as [|c w]; [congruence|]. rewrite add_curse_word_unfold.
    destruct (bool_decide_reflect (strip (lower (c :: w)) ∈ curse_words self)) as [Hin|Hout];
      simpl; set_solver.
  - intros items level Hitem. apply (listed_word_flagged _ word); auto.
    assert (Hset : strip (lower word) ∈ word_set items).
    { unfold word_set. rewrite elem_of_list_to_set, list_elem_of_In.
      apply in_map_iff. exists (JStr word). split; [reflexivity|].
      apply filter_In. split; [exact Hitem|].
      simpl. destruct word; [congruence|reflexivity]. }
    rewrite init_unfold. simpl.
    exact Hset.
Qed.

(** X12. Adding a word that is new and removing it again gives back the
    engine as it was, both calls returning [True]; adding it a second time
    returns [False] and changes nothing. *)
Theorem add_then_remove (self : ChatMessageFilter) (c : N) (w : pystr) :
  strip (lower (c :: w)) ∉ curse_words self ->
  exists after,
    add_curse_word (Str (c :: w)) self = (Return true, after)
    /\ strip (lower (c :: w)) ∈ curse_words after
    /\ add_curse_word (Str (c :: w)) after = (Return false, after)
    /\ remove_curse_word (Str (c :: w)) after = (Return true, self).
Proof.
  intros Hnew.
  exists (with_curse_words (curse_words self ∪ {[strip (lower (c :: w))]}) self).
  assert (Hin : strip (lower (c :: w)) ∈ curse_words self ∪ {[strip (lower (c :: w))]})
    by set_solver.
  repeat split.
  - rewrite add_curse_word_unfold. now rewrite (bool_decide_eq_false_2 _ Hnew).
  - exact Hin.
  - rewrite add_curse_word_unfold. simpl. now rewrite (bool_decide_eq_true_2 _ Hin).
  - rewrite remove_curse_word_unfold. simpl. rewrite (bool_decide_eq_true_2 _ Hin).
    f_equal. destruct self as [level words char hi lo processed filtered].
    unfold with_curse_words. simpl in *. f_equal. set_solver.
Qed.

(** X13. [remove_curse_word] never raises. It returns [True] exactly when
    its argument is a non-empty string whose lowercased, trimmed form is in
    the block list; otherwise the engine is unchanged. After the call that
    form is not in the block list, and nothing but the block list has
    changed. *)
Theorem remove_curse_word_total (self : ChatMessageFilter) (word : pyarg) :
  exists removed,
    fst (remove_curse_word word self) = Return removed
    /\ (removed = true <->
        exists c w, word = Str (c :: w) /\ strip (lower (c :: w)) ∈ curse_words self)
    /\ (removed = false -> snd (remove_curse_word word self) = self)
    /\ (forall c w, word = Str (c :: w) ->
                    strip (lower (c :: w)) ∉ curse_words (snd (remove_curse_word word self)))
    /\ snd (remove_curse_word word self)
       = with_curse_words (curse_words (snd (remove_curse_word word self))) self.
Proof.
  destruct self as [level words char hi lo processed filtered].
  destruct word as [|[|c w]].
  - exists false. repeat split; try discriminate.
    intros (c & w & Heq & _). discriminate.
  - exists false. repeat split; try discriminate.
    intros (c & w & Heq & _). discriminate.
  - rewrite remove_curse_word_unfold. simpl curse_words.
    destruct (bool_decide_reflect (strip (lower (c :: w)) ∈ words)) as [Hin|Hout].
    + exists true. repeat split; try discriminate.
      * intros _. now exists c, w.
      * intros c' w' [= <- <-]. simpl. set_solver.
    + exists false. repeat split; try discriminate.
      * intros (c' & w' & [= <- <-] & Hin). contradiction.
      * intros c' w' [= <- <-]. exact Hout.
Qed.

End Words.

(** ** What every reachable engine satisfies *)

Section Invariants.

Context {B : Builtins}.

(** Words need a separator between them: a text has at most half as many
    tokens as characters, rounded up. *)
Lemma words_of_pieces_bound (s : pystr) :
  (2 * length (words_of (pieces s))
   <= length s + (if starts_with_word (pieces s) then 1 else 0))%nat.
Proof.
  induction s as [|c s IH]; [simpl; lia|].
  rewrite pieces_cons. destruct (is_word c).
  - destruct (pieces s) as [|[w|d] ps]; simpl in *; lia.
  - simpl. destruct (starts_with_word (pieces s)); lia.
Qed.

Lemma offending_words_bound (self : ChatMessageFilter) (m : pystr) :
  (2 * length (offending_words self m) <= length m + 1)%nat.
Proof.
  pose proof (words_of_pieces_bound m) as H.
  assert (Hle : (length (offending_words self m) <= length (words_of (pieces m)))%nat)
    by apply List.filter_length_le.
  destruct (starts_with_word (pieces m)); lia.
Qed.

Lemma filter_message_well_configured
      (self : ChatMessageFilter) (message : pyarg) (pl : bool) :
  well_configured self -> well_configured (snd (filter_message message pl self)).
Proof.
  intros Hok. destruct message as [|m].
  - now rewrite filter_message_invalid by discriminate.
  - destruct (valid_message_dec self m) as [Hv|Hv].
    + rewrite filter_message_valid by exact Hv.
      destruct Hok as (Hr & Hmax & Hmin & Hp & Hf & Hratio).
      destruct Hv as (_ & Hlen & _). rewrite Hmax in Hlen.
      pose proof (offending_words_bound self m) as Hb.
      unfold well_configured. simpl. repeat split; try assumption; lia.
    + now rewrite filter_message_invalid by (intros m' [= <-]; exact Hv).
Qed.

Lemma perform_well_configured (c : call) (self : ChatMessageFilter) :
  well_configured self -> well_configured (perform c self).
Proof.
  intros Hok.
  destruct c as [file|word|word|char|level|message pl|message|]; unfold perform.
  - rewrite load_curse_words_unfold.
    destruct file as [| | |data]; try exact Hok.
    destruct (document_words data) as [ws|]; [|exact Hok].
    destruct (bool_decide (ws = ∅)); exact Hok.
  - destruct word as [|[|c w]]; try exact Hok.
    rewrite add_curse_word_unfold. destruct (bool_decide _); exact Hok.
  - destruct word as [|[|c w]]; try exact Hok.
    rewrite remove_curse_word_unfold. destruct (bool_decide _); exact Hok.
  - rewrite set_replacement_char_unfold.
    destruct (bool_decide_reflect (length char = 1%nat)) as [Hlen|_]; [|exact Hok].
    destruct Hok as (_ & Hrest). split; [exact Hlen|exact Hrest].
  - destruct level; exact Hok.
  - now apply filter_message_well_configured.
  - destruct message as [|[|c m]]; try exact Hok.
    destruct (valid_message_dec self (c :: m)) as [Hv|Hv].
    + rewrite get_filter_report_valid by exact Hv.
      now apply filter_message_well_configured.
    + now rewrite get_filter_report_invalid by exact Hv.
  - destruct Hok as (Hr & Hmax & Hmin & _).
    unfold well_configured. simpl. repeat split; try assumption; lia.
Qed.

(** X14. Every engine a program can hold, whatever it was built from and
    whatever calls were made on it, has a replacement text of exactly one
    character, the length bounds 1 and 1000, and counters that are not
    negative, with at most 500 filtered words for each processed message. *)
Theorem reachable_well_configured (self : ChatMessageFilter) :
  reachable self -> well_configured self.
Proof.
  intros (file & level & calls & ->).
  assert (Hinit : well_configured (__init__ file level)).
  { rewrite init_unfold. unfold well_configured.
    destruct file as [| | |data]; simpl; try (repeat split; lia).
    destruct (document_words data); simpl; repeat split; lia. }
  revert Hinit. generalize (__init__ file level).
  induction calls as [|c calls IH]; intros start Hstart; [exact Hstart|].
  simpl. apply IH. now apply perform_well_configured.
Qed.

(** X15. What a call leaves alone, whether it returns or raises:
    [filter_message], [get_filter_report] and [reset_statistics] keep the
    block list and the configuration; loading, [add_curse_word] and
    [remove_curse_word] change nothing but the block list;
    [set_replacement_char] and [set_filter_level] change nothing but their
    own attribute. *)
Theorem calls_keep_the_rest (c : call) (self : ChatMessageFilter) :
  frame_of c self (perform c self).
Proof.
  destruct self as [level words char hi lo processed filtered].
  destruct c as [file|word|word|rc|l|message pl|message|];
    unfold frame_of, perform.
  - rewrite load_curse_words_unfold.
    destruct file as [| | |data]; try reflexivity.
    destruct (document_words data) as [ws|]; [|reflexivity].
    destruct (bool_decide (ws = ∅)); reflexivity.
  - destruct word as [|[|c w]]; try reflexivity.
    rewrite add_curse_word_unfold. destruct (bool_decide _); reflexivity.
  - destruct word as [|[|c w]]; try reflexivity.
    rewrite remove_curse_word_unfold. destruct (bool_decide _); reflexivity.
  - rewrite set_replacement_char_unfold. destruct (bool_decide _); reflexivity.
  - destruct l; reflexivity.
  - apply filter_message_same_policy.
  - destruct message as [|[|c m]]; try (repeat split; fail).
    match goal with |- same_policy (snd (get_filter_report _ ?s)) _ =>
      destruct (valid_message_dec s (c :: m)) as [Hv|Hv] end.
    + rewrite get_filter_report_valid by exact Hv. apply filter_message_same_policy.
    + rewrite get_filter_report_invalid by exact Hv. repeat split.
  - repeat split.
Qed.

End Invariants.

(** ** Reports *)

Section Reports.

Context {B : Builtins}.

Lemma length_censor_word (self : ChatMessageFilter) (r : N) (w : pystr) :
  replacement_char self = [r] -> length (censor self true w) = length w.
Proof.
  intros Hr. unfold censor. rewrite Hr.
  destruct (_should_filter_word self w); [apply length_str_mul_single|reflexivity].
Qed.

(** With a replacement character that is not a word character, a text
    that comes back unchanged had no offending word. *)
Lemma unchanged_means_clean (self : ChatMessageFilter) (r : N) (ps : list piece) :
  replacement_char self = [r] -> is_word r = false -> well_cut ps ->
  censor_pieces self true ps = unpieces ps ->
  List.filter (_should_filter_word self) (words_of ps) = [].
Proof.
  intros Hr Hword. induction ps as [|[w|c] ps IH]; simpl; [reflexivity| |].
  - intros (Hne & Hall & _ & Hps) Heq.
    apply app_inj_1 in Heq as [Hw Hrest]; [|now apply (length_censor_word self r)].
    unfold censor in Hw. rewrite Hr, str_mul_single in Hw.
    destruct (_should_filter_word self w); [|now apply IH].
    exfalso. destruct w as [|c w]; [congruence|].
    simpl in Hw, Hall. injection Hw as -> _.
    apply andb_true_iff in Hall as [Hc _]. congruence.
  - intros (_ & Hps) Heq. injection Heq as Heq. now apply IH.
Qed.

(** X16. The report on a valid message agrees with the other methods: its
    filtered text is what [filter_message] returns and is as long as the
    message, its clean flag is [is_message_clean], and it counts no more
    offending words than words. A message reported clean comes back
    unchanged; when the replacement character is not a word character, a
    message that comes back unchanged is reported clean. *)
Theorem report_is_consistent (self : ChatMessageFilter) (r : N) (message : pystr) :
  replacement_char self = [r] ->
  valid_message self message ->
  exists report,
    fst (get_filter_report (Str message) self) = Return report
    /\ original_message report = message
    /\ fst (filter_message (Str message) true self) = Return (filtered_message report)
    /\ length (filtered_message report) = length message
    /\ is_clean report = is_message_clean self (Str message)
    /\ (0 <= filtered_words_count report <= total_words report)%Z
    /\ (is_clean report = true -> filtered_message report = message)
    /\ (is_word r = false -> filtered_message report = message -> is_clean report = true).
Proof.
  intros Hr Hvalid. rewrite get_filter_report_valid by exact Hvalid.
  eexists. split; [reflexivity|].
  cbn [original_message filtered_message is_clean filtered_words_count total_words].
  rewrite filter_message_valid by exact Hvalid. rewrite detect_unfold.
  split; [reflexivity|]. split; [reflexivity|]. split.
  { rewrite <- (unpieces_recut self r) by exact Hr.
    now rewrite length_unpieces_recut, unpieces_pieces. }
  split; [unfold is_message_clean; now rewrite detect_unfold|]. split.
  { split; [lia|]. apply inj_le. apply List.filter_length_le. }
  split.
  - intros Hclean. apply bool_decide_eq_true_1 in Hclean.
    rewrite censor_pieces_clean; [apply unpieces_pieces|].
    intros w Hw. destruct (_should_filter_word self w) eqn:Hoff; [|reflexivity].
    exfalso. assert (Hin : In w (offending_words self message))
      by (apply filter_In; now split).
    destruct (offending_words self message); [destruct Hin|discriminate].
  - intros Hword Hsame. apply bool_decide_eq_true_2.
    unfold offending_words, findall_words. fold (words_of (pieces message)).
    rewrite (unchanged_means_clean self r); [reflexivity|exact Hr|exact Hword| |].
    + apply well_cut_pieces.
    + now rewrite unpieces_pieces.
Qed.

(** X17. On an absent or empty message [get_filter_report] returns a
    vacuous clean report and counts nothing, while on a non-empty message
    that is longer than the maximum it raises [ValueError]; either way the
    engine is left as it was. *)
Theorem report_on_rejected_input (self : ChatMessageFilter) :
  (forall message,
     message = NotStr \/ message = Str [] ->
     exists report,
       get_filter_report message self = (Return report, self)
       /\ is_clean report = true
       /\ inappropriate_words report = []
       /\ filtered_message report = []
       /\ message_length report = None)
  /\ (forall message,
        message <> [] ->
        (max_message_length self < Z.of_nat (length message))%Z ->
        get_filter_report (Str message) self = (Raise ValueError, self)).
Proof.
  split.
  - intros message [->| ->]; eexists; (split; [reflexivity|]); repeat split.
  - intros message Hne Hlong. destruct message as [|c m]; [congruence|].
    apply get_filter_report_invalid. unfold valid_message. lia.
Qed.

End Reports.

(** ** Batches *)

Section Batches.

Context {B : Builtins}.

Lemma batch_items_cons (msg : pyarg) (rest : list pyarg) (self : ChatMessageFilter) :
  batch_items (msg :: rest) self =
    match match msg with
          | Str _ => filter_message msg true self
          | NotStr => (Return [], self)
          end with
    | (Return first, self1) =>
        match batch_items rest self1 with
        | (Return others, self2) => (Return (first :: others), self2)
        | (Raise e, self2) => (Raise e, self2)
        end
    | (Raise e, self1) => (Raise e, self1)
    end.
Proof.
  simpl. unfold bind, ret. destruct msg as [|m]; [|destruct (filter_message _ _ _) as [[?|?] ?]];
    try reflexivity; destruct (batch_items rest _) as [[?|?] ?]; reflexivity.
Qed.

(** A batch whose strings are all valid, started with the policy of
    [start]. *)
Lemma batch_items_valid (messages : list pyarg) (start self : ChatMessageFilter) :
  same_policy start self ->
  Forall (valid_message start) (strings messages) ->
  batch_items messages self =
    (Return (List.map (batch_text start) messages),
     with_statistics
       (total_messages_processed self + Z.of_nat (length (strings messages)))
       (total_words_filtered self
        + Z.of_nat (length (flat_map (offending_words start) (strings messages))))
       self).
Proof.
  revert self. induction messages as [|msg rest IH]; intros self Hsame Hvalid.
  - simpl. rewrite !Z.add_0_r. destruct self; reflexivity.
  - rewrite batch_items_cons. destruct msg as [|m].
    + rewrite (IH self Hsame Hvalid). reflexivity.
    + simpl in Hvalid. inversion Hvalid as [|? ? Hm Hrest]; subst.
      pose proof (valid_message_same_policy start self m Hsame Hm) as Hm'.
      rewrite (filter_message_valid self true m Hm').
      rewrite IH; [|destruct Hsame as (? & ? & ? & ? & ?); repeat split; assumption
                   |exact Hrest].
      simpl. rewrite length_app.
      rewrite (censor_pieces_same_policy start self) by exact Hsame.
      rewrite (offending_words_same_policy start self m Hsame).
      f_equal. unfold with_statistics. simpl. f_equal; lia.
Qed.

(** X18. [batch_filter_messages] raises [ValueError] on an argument that
    is not a list. On a list whose strings are all valid it returns one
    text for each item, in order: the filtered text of a string, the empty
    string for anything else; each string counts as one processed message.
    When a string of the list is not valid (an empty string, say), the
    whole call raises [ValueError], but the strings before it have already
    been filtered and stay counted. *)
Theorem batch_filters_in_order (self : ChatMessageFilter) :
  batch_filter_messages None self = (Raise ValueError, self)
  /\ (forall messages,
        Forall (valid_message self) (strings messages) ->
        exists after,
          batch_filter_messages (Some messages) self
            = (Return (List.map (batch_text self) messages), after)
          /\ same_policy after self
          /\ total_messages_processed after
             = (total_messages_processed self + Z.of_nat (length (strings messages)))%Z
          /\ total_words_filtered after
             = (total_words_filtered self
                + Z.of_nat (length (flat_map (offending_words self) (strings messages))))%Z)
  /\ (forall done bad rest,
        Forall (valid_message self) (strings done) ->
        ~ valid_message self bad ->
        exists after,
          batch_filter_messages (Some (done ++ Str bad :: rest)) self
            = (Raise ValueError, after)
          /\ batch_filter_messages (Some done) self
             = (Return (List.map (batch_text self) done), after)
          /\ total_messages_processed after
             = (total_messages_processed self + Z.of_nat (length (strings done)))%Z).
Proof.
  split; [reflexivity|]. split.
  - intros messages Hvalid. eexists. split.
    + apply (batch_items_valid messages self self); [repeat split|exact Hvalid].
    + repeat split.
  - intros done bad rest Hvalid Hbad. eexists. split; [|split].
    2: { apply (batch_items_valid done self self); [repeat split|exact Hvalid]. }
    2: { reflexivity. }
    unfold batch_filter_messages.
    assert (Hgen : forall start current,
               same_policy start current ->
               Forall (valid_message start) (strings done) ->
               ~ valid_message start bad ->
               batch_items (done ++ Str bad :: rest) current
               = (Raise ValueError, snd (batch_items done current))).
    { clear. induction done as [|msg done IH]; intros start current Hsame Hvalid Hbad.
      - simpl app. rewrite batch_items_cons.
        rewrite filter_message_invalid; [reflexivity|].
        intros m' [= <-] Hv. apply Hbad.
        apply (valid_message_same_policy current start); [|exact Hv].
        destruct Hsame as (? & ? & ? & ? & ?); repeat split; congruence.
      - rewrite <- app_comm_cons, !batch_items_cons. destruct msg as [|m].
        + rewrite (IH start current Hsame Hvalid Hbad).
          destruct (batch_items done current) as [[?|?] ?]; reflexivity.
        + simpl in Hvalid. inversion Hvalid as [|? ? Hm Hrest]; subst.
          pose proof (valid_message_same_policy start current m Hsame Hm) as Hm'.
          rewrite (filter_message_valid current true m Hm').
          rewrite (IH start); [|destruct Hsame as (? & ? & ? & ? & ?); repeat split; assumption
                               |exact Hrest|exact Hbad].
          destruct (batch_items done _) as [[?|?] ?]; reflexivity. }
    rewrite (Hgen self self); [|repeat split|exact Hvalid|exact Hbad].
    now rewrite (batch_items_valid done self self); [|repeat split|exact Hvalid].
Qed.

End Batches.

(** ** Exporting the block list *)

Section Exporting.

Context {B : Builtins}.

Lemma str_leb_refl (a : pystr) : str_leb a a = true.
Proof.
  induction a as [|x a IH]; [reflexivity|]. simpl.
  now rewrite N.ltb_irrefl, N.eqb_refl.
Qed.

#[local] Instance str_le_total : Total str_le.
Proof.
  unfold Total, str_le. intros a. induction a as [|x a IH]; intros [|y b]; simpl; auto.
  destruct (N.ltb_spec x y), (N.ltb_spec y x); auto; try lia.
  assert (x = y) by lia. subst y. rewrite N.eqb_refl. apply IH.
Qed.

#[local] Instance str_le_trans : Transitive str_le.
Proof.
  unfold Transitive, str_le. intros a. induction a as [|x a IH]; intros [|y b] [|z c];
    simpl; auto; try discriminate.
  destruct (N.ltb_spec x y), (N.ltb_spec y z), (N.ltb_spec x z); auto; try lia;
    destruct (N.eqb_spec x y), (N.eqb_spec y z), (N.eqb_spec x z);
    auto; try lia; try discriminate.
  apply IH.
Qed.

#[local] Instance str_le_antisym : AntiSymm (=) str_le.
Proof.
  unfold AntiSymm, str_le. intros a. induction a as [|x a IH]; intros [|y b];
    simpl; auto; try discriminate.
  destruct (N.ltb_spec x y), (N.ltb_spec y x); try lia; try discriminate.
  - destruct (N.eqb_spec y x); [lia|discriminate].
  - destruct (N.eqb_spec x y); [lia|discriminate].
  - destruct (N.eqb_spec x y); [|discriminate]. subst y. rewrite N.eqb_refl.
    intros H1 H2. f_equal. now apply IH.
Qed.

(** X19. [export_curse_words] raises [OSError] when the file cannot be
    written. Otherwise it writes the words of the block list, each once, in
    ascending order of code points, and leaves the engine as it was; the
    list written does not depend on the order in which the set is gone
    through. *)
Theorem export_writes_sorted_words (self : ChatMessageFilter) :
  export_curse_words false self = (Raise OSError, self)
  /\ exists words,
       export_curse_words true self = (Return (JList (List.map JStr words)), self)
       /\ Sorted str_le words
       /\ NoDup words
       /\ (forall w, w ∈ words <-> w ∈ curse_words self)
       /\ (forall listing, listing ≡ₚ elements (curse_words self) ->
                           sorted listing = words).
Proof.
  split; [reflexivity|].
  exists (sorted (elements (curse_words self))).
  split; [reflexivity|]. split; [apply Sorted_merge_sort, _|]. split; [|split].
  - unfold sorted. rewrite merge_sort_Permutation. apply NoDup_elements.
  - intros w. unfold sorted. rewrite merge_sort_Permutation. apply elem_of_elements.
  - intros listing Hperm. unfold sorted.
    apply (Sorted_unique str_le); try apply Sorted_merge_sort; try apply _.
    now rewrite !merge_sort_Permutation.
Qed.

(** A stored ASCII word is its own lowercased, trimmed form. *)
Lemma stored_ascii_fixed (w : pystr) :
  trimmed w -> no_ascii_upper w -> ascii_only w -> strip (lower w) = w.
Proof.
  intros [Hl Hr] Hupper Hascii. rewrite lower_ascii by exact Hascii.
  assert (Hfold : List.map ascii_fold w = w).
  { clear -Hupper. unfold no_ascii_upper in Hupper.
    induction w as [|c w IH]; [reflexivity|]. simpl in *.
    apply andb_true_iff in Hupper as [Hc Hw]. apply negb_true_iff in Hc.
    unfold ascii_fold at 1. now rewrite Hc, IH. }
  rewrite Hfold. unfold strip. now rewrite Hl, Hr.
Qed.

(** X20. Exporting the block list and building an engine from the
    exported document gives the same block list again, the empty word
    apart (the loader skips it): this holds when every stored word is its
    own lowercased, trimmed form, as the ASCII words of any reachable
    engine are. If nothing but the empty word is stored, loading fails and
    the new block list is empty. *)
Theorem export_then_load (self : ChatMessageFilter) (level : FilterLevel) (document : json) :
  (forall w, w ∈ curse_words self -> strip (lower w) = w) ->
  fst (export_curse_words true self) = Return document ->
  curse_words (__init__ (Parsed document) level) = curse_words self ∖ {[ [] ]}.
Proof.
  intros Hfixed [= <-]. rewrite init_unfold. simpl document_words. cbv iota.
  cbn [curse_words with_curse_words].
  apply set_eq. intros w. unfold word_set.
  rewrite elem_of_list_to_set, list_elem_of_In, in_map_iff.
  rewrite elem_of_difference, elem_of_singleton. split.
  - intros (item & <- & Hitem). apply filter_In in Hitem as [Hitem Htruthy].
    apply in_map_iff in Hitem as (x & <- & Hx). apply list_elem_of_In in Hx.
    unfold sorted in Hx. rewrite merge_sort_Permutation, elem_of_elements in Hx.
    simpl. rewrite (Hfixed x Hx). split; [exact Hx|].
    intros ->. simpl in Htruthy. discriminate.
  - intros [Hw Hne]. exists (JStr w). split; [apply (Hfixed w Hw)|].
    apply filter_In. split.
    + apply in_map_iff. exists w. split; [reflexivity|]. apply list_elem_of_In.
      unfold sorted. now rewrite merge_sort_Permutation, elem_of_elements.
    + simpl. destruct w; [congruence|reflexivity].
Qed.

(** The precondition of X20 holds of the ASCII words of reachable engines. *)
Lemma reachable_ascii_fixed (self : ChatMessageFilter) :
  reachable self -> lowercase_table ->
  (forall w, w ∈ curse_words self -> ascii_only w) ->
  forall w, w ∈ curse_words self -> strip (lower w) = w.
Proof.
  intros Hreach Htable Hascii w Hw.
  destruct (run_words_shape self w Hreach Hw) as [Htrim Hupper].
  apply stored_ascii_fixed; auto.
Qed.

End Exporting.

(** * The engine on concrete messages

    The statements above hold for every choice of [Builtins]; the runs
    below use [plain_builtins] and ASCII text (and the Kelvin sign, whose
    lowercase is fixed in [lower_cp]). *)

Module Runs.

#[local] Existing Instance plain_builtins.

Lemma scenario_suka_blyat_witness :
  detect_inappropriate_words suka_blyat (Str (py "Salom suka qalesan blyat"))
    = [py "suka"; py "blyat"]
  /\ fst (filter_message (Str (py "Salom suka qalesan blyat")) true suka_blyat)
     = Return (py "Salom **** qalesan *****").
Proof.
  apply (scenario_suka_blyat suka_blyat); vm_compute; reflexivity.
Defined.

Lemma d4mn_flagged_unless_lenient_witness :
  let self := run [Call_add_curse_word (Str (py "damn"))] suka_blyat in
  _should_filter_word self (py "D4mn") = true
  /\ _should_filter_word (with_filter_level LENIENT self) (py "D4mn") = false.
Proof.
  intros self.
  destruct d4mn_flagged_unless_lenient as (_ & _ & _ & Hmoderate & Hlenient).
  split.
  - apply Hmoderate; [|reflexivity].
    apply (bool_decide_eq_true_1 _). vm_compute. reflexivity.
  - apply Hlenient; vm_compute; reflexivity.
Defined.

Lemma failed_load_leaves_block_list_empty_witness :
  curse_words (__init__ (Parsed (JDict [(py "words", JList [])])) MODERATE) = ∅
  /\ curse_words (__init__ (Parsed (JStr (py "suka"))) MODERATE) = ∅
  /\ is_message_clean (__init__ Missing STRICT) (Str (py "blyat")) = true.
Proof.
  destruct failed_load_leaves_block_list_empty as (Hfail & Hcases & Hclean & _).
  split; [|split].
  - apply Hfail. apply (Hcases MODERATE).
  - apply Hfail. apply (Hcases MODERATE).
  - apply Hclean. vm_compute. reflexivity.
Defined.

Lemma clean_message_unchanged_witness :
  fst (filter_message (Str (py "Salom dunyo!")) true suka_blyat)
    = Return (py "Salom dunyo!")
  /\ is_message_clean suka_blyat (Str (py "Salom dunyo!")) = true.
Proof.
  apply (clean_message_unchanged suka_blyat (py "Salom dunyo!") true).
  - repeat split; [discriminate|vm_compute; discriminate|vm_compute; discriminate].
  - intros token Hin. vm_compute in Hin.
    destruct Hin as [<-|[<-|[]]];
      split; apply (bool_decide_eq_false_1 _); vm_compute; reflexivity.
Defined.

Lemma filtering_twice_same_text_witness :
  let once := filter_message (Str (py "Salom suka qalesan blyat")) true suka_blyat in
  fst (filter_message (Str (py "Salom **** qalesan *****")) true (snd once))
    = Return (py "Salom **** qalesan *****")
  /\ detect_inappropriate_words (snd once) (Str (py "Salom **** qalesan *****")) = [].
Proof.
  destruct (filtering_twice_same_text
              suka_blyat (py "Salom suka qalesan blyat") (py "Salom **** qalesan *****"))
    as [Htext Hnone]; [reflexivity|vm_compute; reflexivity|].
  split; [exact Htext|].
  apply (Hnone 42%N); reflexivity.
Defined.

(** C6, as stated, fails: with the replacement character [a] and the
    block list (suka, aaaa), "suka" is filtered to "aaaa", which is itself
    an offending token. *)
Lemma filtered_text_may_offend :
  let self := run [Call_set_replacement_char (py "a")]
                  (__init__ (Parsed (JList [JStr (py "suka"); JStr (py "aaaa")])) MODERATE) in
  let once := filter_message (Str (py "suka")) true self in
  fst once = Return (py "aaaa")
  /\ detect_inappropriate_words (snd once) (Str (py "aaaa")) = [py "aaaa"].
Proof. vm_compute. split; reflexivity. Qed.

Lemma stored_words_lowercased_and_trimmed_witness :
  let self := run [Call_add_curse_word (Str (py "  Yomon_SOZ "))] suka_blyat in
  py "yomon_soz" ∈ curse_words self
  /\ trimmed (py "yomon_soz") /\ no_ascii_upper (py "yomon_soz").
Proof.
  intros self.
  assert (Hin : py "yomon_soz" ∈ curse_words self)
    by (apply (bool_decide_eq_true_1 _); vm_compute; reflexivity).
  destruct stored_words_lowercased_and_trimmed as (Hshape & _).
  destruct (Hshape self (py "yomon_soz")) as (_ & Htrim & Hlower).
  - exists (Parsed (JList [JStr (py "suka"); JStr (py "blyat")])), MODERATE,
      [Call_add_curse_word (Str (py "  Yomon_SOZ "))]. reflexivity.
  - exact Hin.
  - split; [exact Hin|]. split; [exact Htrim|]. apply Hlower.
    intros before c after x Hc [<-|[]]. unfold is_ascii in Hc.
    apply N.ltb_ge in Hc. unfold ascii_upper, in_range.
    apply andb_false_iff. right. apply N.leb_gt. lia.
Defined.

(** C7, as stated, fails: [add_curse_word("yomon_soz")] stores the word
    with its underscore, so a stored word need not be letters only. *)
Lemma stored_word_not_letters_only :
  let self := run [Call_add_curse_word (Str (py "yomon_soz"))] (__init__ Missing MODERATE) in
  ~ (forall w, w ∈ curse_words self -> normalized_word w).
Proof.
  intros self Hall.
  assert (Hin : py "yomon_soz" ∈ curse_words self)
    by (apply (bool_decide_eq_true_1 _); vm_compute; reflexivity).
  destruct (Hall _ Hin) as [_ Hletters]. vm_compute in Hletters. discriminate.
Qed.

Lemma normalizer_and_empty_normal_form_witness :
  _normalize_word (py "D4mn!") = normalize_spec (py "D4mn!")
  /\ (_should_filter_word suka_blyat (py "2024") = true <->
      filter_level suka_blyat <> LENIENT
      /\ variation_form (py "2024") ∈ curse_words suka_blyat).
Proof.
  destruct normalizer_and_empty_normal_form as (Hspec & Hempty).
  split.
  - apply Hspec. reflexivity.
  - apply Hempty; [reflexivity|].
    apply (bool_decide_eq_false_1 _). vm_compute. reflexivity.
Defined.

(** C8, as stated, fails twice. The Kelvin sign is not an ASCII letter,
    but its lowercase is [k]: the normalizer keeps it, the reference
    function drops it. And with the block list (is) at the default
    strictness, the token "15" has an empty normalized form and is judged
    offending, through its substituted form "is". *)
Lemma normalizer_counterexamples :
  _normalize_word [8490%N] = py "k"
  /\ normalize_spec [8490%N] = []
  /\ (let self := __init__ (Parsed (JList [JStr (py "is")])) MODERATE in
      _normalize_word (py "15") = []
      /\ variation_form (py "15") = py "is"
      /\ _should_filter_word self (py "15") = true).
Proof. vm_compute. repeat split; reflexivity. Qed.

Lemma counters_count_filtered_messages_witness :
  let calls := [Call_filter_message (Str (py "Salom dunyo!")) true;
                Call_filter_message (Str []) true;
                Call_add_curse_word (Str (py "damn"));
                Call_filter_message (Str (py "Sen blyat suka sen! D4mn")) false] in
  let start := snd (reset_statistics suka_blyat) in
  total_messages_processed (run calls start) = 2%Z
  /\ total_words_filtered (run calls start) = 3%Z
  /\ total_messages_processed (snd (get_filter_report (Str (py "Sen blyat")) suka_blyat))
     = 1%Z
  /\ (let final := run (filter_calls [(py "Salom dunyo!", true);
                                      (py "Sen blyat suka sen!", true)]) start in
      total_messages_processed final = 2%Z /\ total_words_filtered final = 2%Z).
Proof.
  intros calls start. subst start. cbv zeta.
  destruct counters_count_filtered_messages as (Hplain & Hrun & Hreport).
  destruct (Hrun suka_blyat calls) as [Hn Hk].
  { repeat constructor; discriminate. }
  destruct (Hreport suka_blyat (py "Sen blyat")) as (report & _ & _ & _ & Hone & _).
  { split; [discriminate|split; vm_compute; discriminate]. }
  destruct (Hplain suka_blyat [(py "Salom dunyo!", true);
                               (py "Sen blyat suka sen!", true)]) as [Hn' Hk'].
  { constructor; [|constructor; [|constructor]];
      (split; [discriminate|split; vm_compute; discriminate]). }
  rewrite Hn, Hk, Hone, Hn', Hk'.
  vm_compute. repeat split; reflexivity.
Defined.

Lemma filter_message_raise_keeps_state_witness :
  snd (filter_message (Str []) true suka_blyat) = suka_blyat
  /\ snd (filter_message (Str (repeat 97%N 1001)) true suka_blyat) = suka_blyat.
Proof.
  split.
  - apply (filter_message_raise_keeps_state (Str []) true suka_blyat ValueError).
    reflexivity.
  - apply (filter_message_raise_keeps_state (Str (repeat 97%N 1001)) true
                                            suka_blyat ValueError).
    vm_compute. reflexivity.
Defined.

(** Whitespace passes the emptiness check of [add_curse_word] and is then
    trimmed away: the empty word is stored, and every token without a
    letter is judged offending, at every strictness. *)
Lemma blank_word_is_stored_empty :
  let self := run [Call_add_curse_word (Str (py " "));
                   Call_set_filter_level (Some LENIENT)]
                  (__init__ Missing MODERATE) in
  curse_words self = {[ [] ]}
  /\ detect_inappropriate_words self (Str (py "call 2024 now")) = [py "2024"].
Proof. vm_compute. split; reflexivity. Qed.

(** The assertions of the repository's tests hold of the embedding. *)

Example test_initialization_with_valid_file :
  size (curse_words filter_instance) = 5%nat
  /\ py "blyat" ∈ curse_words filter_instance
  /\ filter_level filter_instance = MODERATE.
Proof.
  split; [vm_compute; reflexivity|]. split; [|reflexivity].
  apply (bool_decide_eq_true_1 _). vm_compute. reflexivity.
Qed.

Example test_add_curse_word_success :
  let result := add_curse_word (Str (py "yomon_soz")) filter_instance in
  fst result = Return true
  /\ size (curse_words (snd result)) = 6%nat
  /\ bool_decide (py "yomon_soz" ∈ curse_words (snd result)) = true.
Proof. vm_compute. repeat split; reflexivity. Qed.

Example test_remove_curse_word_success :
  let result := remove_curse_word (Str (py "blyat")) filter_instance in
  fst result = Return true
  /\ size (curse_words (snd result)) = 4%nat
  /\ bool_decide (py "blyat" ∈ curse_words (snd result)) = false.
Proof. vm_compute. repeat split; reflexivity. Qed.

Example test_detect_inappropriate_words :
  detect_inappropriate_words filter_instance (Str (py "Salom yaxshimisan qalesan?")) = []
  /\ detect_inappropriate_words filter_instance (Str (py "Salom suka qalesan blyat"))
     = [py "suka"; py "blyat"]
  /\ detect_inappropriate_words filter_instance (Str []) = []
  /\ detect_inappropriate_words filter_instance NotStr = [].
Proof. vm_compute. repeat split; reflexivity. Qed.

Example test_filter_message :
  fst (filter_message (Str (py "Assalomu alaykum! Bugun ajoyib kun.")) true filter_instance)
    = Return (py "Assalomu alaykum! Bugun ajoyib kun.")
  /\ fst (filter_message (Str (py "Salom suka blyat qalesan!")) true filter_instance)
     = Return (py "Salom **** ***** qalesan!")
  /\ fst (filter_message (Str (py "Nima blyat!!! Bu suka gap, rostmi?")) true filter_instance)
     = Return (py "Nima *****!!! Bu **** gap, rostmi?")
  /\ fst (filter_message (Str (py "BlYaT bU gAp")) true filter_instance)
     = Return (py "***** bU gAp")
  /\ fst (filter_message (Str (py "Sen blyat suka sen!")) false filter_instance)
     = Return (py "Sen *** *** sen!").
Proof. vm_compute. repeat split; reflexivity. Qed.

Example test_get_statistics :
  let self := run [Call_filter_message (Str (py "Salom dunyo!")) true;
                   Call_filter_message (Str (py "Sen blyat suka sen!")) true]
                  filter_instance in
  stat_total_messages_processed (get_statistics self) = 2%Z
  /\ stat_total_words_filtered (get_statistics self) = 2%Z
  /\ stat_curse_words_count (get_statistics self) = 5%Z.
Proof. vm_compute. repeat split; reflexivity. Qed.

Example test_invalid_input :
  fst (add_curse_word (Str []) filter_instance) = Raise ValueError
  /\ fst (add_curse_word NotStr filter_instance) = Raise ValueError
  /\ fst (set_replacement_char [] filter_instance) = Raise ValueError
  /\ fst (set_replacement_char (py "**") filter_instance) = Raise ValueError
  /\ fst (set_filter_level None filter_instance) = Raise ValueError
  /\ fst (filter_message (Str []) true filter_instance) = Raise ValueError
  /\ fst (filter_message NotStr true filter_instance) = Raise ValueError
  /\ fst (filter_message (Str (repeat 97%N 1001)) true filter_instance) = Raise ValueError.
Proof. vm_compute. repeat split; reflexivity. Qed.

End Runs.

(** * The further properties on concrete messages *)

Module MoreRuns.

#[local] Existing Instance plain_builtins.

Lemma valid_in_suka_blyat (message : pystr) :
  message <> [] -> (Z.of_nat (length message) <= 1000)%Z ->
  valid_message suka_blyat message.
Proof.
  intros Hne Hlen. split; [exact Hne|]. split; [exact Hlen|].
  destruct message; [congruence|]. simpl length. change (min_message_length suka_blyat) with 1%Z. lia.
Qed.

Lemma filter_message_preserves_length_witness :
  length (py "Salom **** qalesan *****") = length (py "Salom suka qalesan blyat").
Proof.
  apply (filter_message_preserves_length suka_blyat);
    [reflexivity|vm_compute; reflexivity].
Defined.

Lemma filter_message_charwise_witness :
  Forall2 (fun a b => b = a \/ (is_word a = true /\ b = 42%N))
          (py "Bu suka gap") (py "Bu **** gap").
Proof.
  apply (filter_message_charwise suka_blyat 42%N);
    [reflexivity|vm_compute; reflexivity].
Defined.


Lemma delimited_word_is_found_witness :
  In (py "blyat")
     (detect_inappropriate_words suka_blyat (Str (py "Nima " ++ py "blyat" ++ py "!!! Bu"))).
Proof.
  destruct (delimited_word_is_found suka_blyat (py "Nima ") (py "blyat") (py "!!! Bu"))
    as [_ Hdetected].
  - discriminate.
  - reflexivity.
  - vm_compute. reflexivity.
  - vm_compute. reflexivity.
  - apply Hdetected. vm_compute. reflexivity.
Defined.

Lemma should_filter_ignores_case_witness :
  _should_filter_word suka_blyat (py "BlYaT") = _should_filter_word suka_blyat (py "blyat").
Proof.
  apply should_filter_ignores_case. repeat split; vm_compute; reflexivity.
Defined.

Lemma entry_with_non_letter_is_dead_witness :
  let self := run [Call_add_curse_word (Str (py "yomon_soz"))] suka_blyat in
  _should_filter_word (with_curse_words (curse_words self ∖ {[py "yomon_soz"]}) self)
                      (py "yomon_soz")
  = _should_filter_word self (py "yomon_soz").
Proof.
  intros self. apply entry_with_non_letter_is_dead. vm_compute. reflexivity.
Defined.

Lemma should_filter_ignores_filler_witness :
  _should_filter_word suka_blyat (py "su" ++ 95%N :: py "ka")
  = _should_filter_word suka_blyat (py "su" ++ py "ka").
Proof.
  apply should_filter_ignores_filler; try (vm_compute; reflexivity). discriminate.
Defined.

Lemma variations_never_match_y_witness :
  _detect_variations (__init__ (Parsed (JList [JStr (py "blyat")])) MODERATE) (py "bly4t")
  = false.
Proof.
  destruct (variations_never_match_y
              (__init__ (Parsed (JList [JStr (py "blyat")])) MODERATE) (py "bly4t"))
    as [_ Hnever]; [reflexivity|].
  apply Hnever. intros entry Hin.
  assert (Hwords : curse_words (__init__ (Parsed (JList [JStr (py "blyat")])) MODERATE)
                   = {[py "blyat"]}) by (vm_compute; reflexivity).
  rewrite Hwords in Hin. apply elem_of_singleton in Hin. subst entry.
  vm_compute. tauto.
Defined.

Lemma listed_word_is_matched_witness :
  _should_filter_word (snd (add_curse_word (Str (py "damn")) suka_blyat)) (py "DAMN") = true
  /\ _should_filter_word
       (__init__ (Parsed (JList [JStr (py "Damn"); JInt 7])) LENIENT) (py "damn") = true.
Proof.
  split.
  - destruct (listed_word_is_matched (py "damn") (py "DAMN")) as [Hadded _];
      [discriminate|reflexivity|repeat split; vm_compute; reflexivity|].
    apply Hadded.
  - destruct (listed_word_is_matched (py "Damn") (py "damn")) as [_ Hloaded];
      [discriminate|reflexivity|repeat split; vm_compute; reflexivity|].
    apply Hloaded. simpl. auto.
Defined.

Lemma add_then_remove_witness :
  exists after,
    add_curse_word (Str (100%N :: py "amn")) suka_blyat = (Return true, after)
    /\ remove_curse_word (Str (100%N :: py "amn")) after = (Return true, suka_blyat).
Proof.
  destruct (add_then_remove suka_blyat 100%N (py "amn")) as (after & Hadd & _ & _ & Hremove).
  - apply (bool_decide_eq_false_1 _). vm_compute. reflexivity.
  - exists after. split; assumption.
Defined.

Lemma remove_curse_word_total_witness :
  snd (remove_curse_word (Str (py "damn")) suka_blyat) = suka_blyat.
Proof.
  destruct (remove_curse_word_total suka_blyat (Str (py "damn")))
    as (removed & Hret & _ & Hsame & _).
  apply Hsame. vm_compute in Hret. congruence.
Defined.

Lemma reachable_well_configured_witness :
  well_configured
    (run [Call_set_replacement_char (py "##");
          Call_set_replacement_char (py "#");
          Call_filter_message (Str (py "Sen blyat suka sen!")) true]
         suka_blyat).
Proof.
  apply reachable_well_configured.
  exists (Parsed (JList [JStr (py "suka"); JStr (py "blyat")])), MODERATE,
    [Call_set_replacement_char (py "##");
     Call_set_replacement_char (py "#");
     Call_filter_message (Str (py "Sen blyat suka sen!")) true].
  reflexivity.
Defined.

Lemma report_is_consistent_witness :
  exists report,
    fst (get_filter_report (Str (py "Sen blyat")) suka_blyat) = Return report
    /\ filtered_message report = py "Sen *****"
    /\ is_clean report = false.
Proof.
  destruct (report_is_consistent suka_blyat 42%N (py "Sen blyat"))
    as (report & Hret & _ & Hfiltered & _ & Hclean & _).
  - reflexivity.
  - apply valid_in_suka_blyat; [discriminate|vm_compute; discriminate].
  - exists report. split; [exact Hret|]. split.
    + vm_compute in Hfiltered |- *. congruence.
    + rewrite Hclean. vm_compute. reflexivity.
Defined.

Lemma report_on_rejected_input_witness :
  get_filter_report (Str (repeat 97%N 1001)) suka_blyat = (Raise ValueError, suka_blyat)
  /\ exists report, get_filter_report (Str []) suka_blyat = (Return report, suka_blyat).
Proof.
  destruct (report_on_rejected_input suka_blyat) as [Hvacuous Hlong]. split.
  - apply Hlong; [discriminate|vm_compute; reflexivity].
  - destruct (Hvacuous (Str [])) as (report & Hret & _); [now right|].
    now exists report.
Defined.

Lemma batch_filters_in_order_witness :
  exists after,
    batch_filter_messages
      (Some [Str (py "Sen blyat"); NotStr; Str []; Str (py "suka")]) suka_blyat
    = (Raise ValueError, after)
    /\ total_messages_processed after = 1%Z.
Proof.
  destruct (batch_filters_in_order suka_blyat) as (_ & _ & Hpartial).
  destruct (Hpartial [Str (py "Sen blyat"); NotStr] [] [Str (py "suka")])
    as (after & Hraise & _ & Hcount).
  - constructor; [|constructor].
    apply valid_in_suka_blyat; [discriminate|vm_compute; discriminate].
  - intros (Hne & _). congruence.
  - exists after. split; [exact Hraise|]. rewrite Hcount. vm_compute. reflexivity.
Defined.

Lemma export_writes_sorted_words_witness :
  exists words,
    export_curse_words true suka_blyat = (Return (JList (List.map JStr words)), suka_blyat)
    /\ sorted [py "suka"; py "blyat"] = words.
Proof.
  destruct (export_writes_sorted_words suka_blyat)
    as (_ & words & Hret & _ & _ & _ & Hunique).
  exists words. split; [exact Hret|]. apply Hunique.
  assert (Hlisted : elements (curse_words suka_blyat) = [py "suka"; py "blyat"]
                    \/ elements (curse_words suka_blyat) = [py "blyat"; py "suka"])
    by (vm_compute; first [left; reflexivity|right; reflexivity]).
  destruct Hlisted as [-> | ->]; [reflexivity|apply perm_swap].
Defined.

Lemma export_then_load_witness :
  curse_words (__init__ (Parsed (JList [JStr (py "blyat"); JStr (py "suka")])) STRICT)
  = curse_words suka_blyat ∖ {[ [] ]}.
Proof.
  apply export_then_load.
  - intros w Hin.
    assert (Hwords : curse_words suka_blyat = {[py "suka"; py "blyat"]})
      by (vm_compute; reflexivity).
    rewrite Hwords in Hin. apply elem_of_union in Hin as [Hin|Hin];
      apply elem_of_singleton in Hin; subst w; vm_compute; reflexivity.
  - vm_compute. reflexivity.
Defined.

End MoreRuns.
